(** * Date resolution of the calendar-event manager (src/server/routes.ts)

    Shallow embedding of [calculateNthDate], [calculateRelativeDate] and
    [calculateEventDate].  The JavaScript [Date] built-in is modelled after
    the ECMAScript specification: a [Date] holds a time value in
    milliseconds since the epoch, [NaN] being the invalid time value, and
    its local-time accessors go through a fixed local time-zone offset
    [off] (LocalTZA, in milliseconds; daylight saving time is not
    modelled).  The calendar arithmetic behind MakeDay, YearFromTime,
    MonthFromTime and DateFromTime is the proleptic Gregorian calendar,
    computed with the usual era-based day-number conversions.

    Beyond date resolution, the development embeds the ICS export route and
    the event routes of the same file, the in-memory storage they use
    (MemStorage in src/server/storage.ts), and the client-side helpers of
    src/client/src/lib/ics-export.ts. *)

From Stdlib Require Import ZArith Lia Bool List String Ascii Permutation.
Import ListNotations.
Open Scope Z_scope.

(** ** Proleptic Gregorian calendar *)

Definition msPerDay : Z := 86400000.
Definition maxTime : Z := 8640000000000000.

Definition is_leap (y : Z) : bool :=
  ((y mod 4 =? 0) && negb (y mod 100 =? 0)) || (y mod 400 =? 0).

(** Days from the start of year [y] to the start of month [m] (1..12),
    after the month table of MonthFromTime. *)
Definition month_start (leap : bool) (m : Z) : Z :=
  let l := if leap then 1 else 0 in
  if m <=? 1 then 0 else if m =? 2 then 31 else if m =? 3 then 59 + l
  else if m =? 4 then 90 + l else if m =? 5 then 120 + l
  else if m =? 6 then 151 + l else if m =? 7 then 181 + l
  else if m =? 8 then 212 + l else if m =? 9 then 243 + l
  else if m =? 10 then 273 + l else if m =? 11 then 304 + l
  else 334 + l.

Definition days_in_month_l (leap : bool) (m : Z) : Z :=
  if m =? 2 then (if leap then 29 else 28)
  else if (m =? 4) || (m =? 6) || (m =? 9) || (m =? 11) then 30
  else 31.

(** Number of days of month [m] (1..12) of year [y]. *)
Definition days_in_month (y m : Z) : Z := days_in_month_l (is_leap y) m.

(** DayFromYear: day number of January 1st of year [y]. *)
Definition DayFromYear (y : Z) : Z :=
  365 * (y - 1970) + (y - 1969) / 4 - (y - 1901) / 100 + (y - 1601) / 400.

(** Day number (days since 1970-01-01) of the civil date [y-m-d],
    for [1 <= m <= 12]; linear in [d]. *)
Definition days_from_civil (y m d : Z) : Z :=
  DayFromYear y + month_start (is_leap y) m + d - 1.

(** YearFromTime on day numbers: the largest [y] with [DayFromYear y <= n],
    searched around the estimate [1970 + 400 n / 146097]. *)
Definition YearFromDays (n : Z) : Z :=
  let e := 1970 + (400 * n) / 146097 in
  if DayFromYear (e + 1) <=? n then
    (if DayFromYear (e + 2) <=? n then e + 2 else e + 1)
  else if DayFromYear e <=? n then e
  else if DayFromYear (e - 1) <=? n then e - 1
  else e - 2.

(** MonthFromTime (1-based here) and DateFromTime on a day within the year. *)
Definition month_of_doy (leap : bool) (doy : Z) : Z :=
  if doy <? month_start leap 2 then 1
  else if doy <? month_start leap 3 then 2
  else if doy <? month_start leap 4 then 3
  else if doy <? month_start leap 5 then 4
  else if doy <? month_start leap 6 then 5
  else if doy <? month_start leap 7 then 6
  else if doy <? month_start leap 8 then 7
  else if doy <? month_start leap 9 then 8
  else if doy <? month_start leap 10 then 9
  else if doy <? month_start leap 11 then 10
  else if doy <? month_start leap 12 then 11
  else 12.

(** Civil date (year, month 1..12, day) of a day number. *)
Definition civil_from_days (n : Z) : Z * Z * Z :=
  let y := YearFromDays n in
  let doy := n - DayFromYear y in
  let m := month_of_doy (is_leap y) doy in
  (y, m, doy - month_start (is_leap y) m + 1).

Definition valid_civil (y m d : Z) : Prop :=
  1 <= m <= 12 /\ 1 <= d <= days_in_month y m.

(** Day of the week of a day number (0 = Sunday); 1970-01-01 was a Thursday. *)
Definition week_day (n : Z) : Z := (n + 4) mod 7.

(** ** Finite checks over the month tables *)

Fixpoint all_upto (k : nat) (lo : Z) (p : Z -> bool) : bool :=
  match k with
  | O => true
  | S k' => p lo && all_upto k' (lo + 1) p
  end.

Definition year_len (leap : bool) : Z := if leap then 366 else 365.

(** Every day of the year decodes into a valid month and day that encode it back. *)
Definition doy_decode_b (leap : bool) : bool :=
  all_upto (Z.to_nat (year_len leap)) 0 (fun doy =>
    let m := month_of_doy leap doy in
    let d := doy - month_start leap m + 1 in
    (1 <=? m) && (m <=? 12) && (1 <=? d) && (d <=? days_in_month_l leap m)).

(** Every valid month and day encodes into a day of the year that decodes back. *)
Definition doy_encode_b (leap : bool) : bool :=
  all_upto 12 1 (fun m =>
    all_upto (Z.to_nat (days_in_month_l leap m)) 1 (fun d =>
      let doy := month_start leap m + d - 1 in
      (0 <=? doy) && (doy <? year_len leap) && (month_of_doy leap doy =? m))).

Definition next_month_b (leap : bool) : bool :=
  all_upto 11 1 (fun m =>
    month_start leap m + days_in_month_l leap m =? month_start leap (m + 1))
  && (month_start leap 12 + 31 =? year_len leap).

(** ** The Date built-in *)

(** A time value in milliseconds; [None] is NaN (an Invalid Date). *)
Definition time := option Z.

Definition TimeClip (t : Z) : time :=
  if Z.abs t <=? maxTime then Some t else None.

Definition Day (t : Z) : Z := t / msPerDay.
Definition TimeWithinDay (t : Z) : Z := t mod msPerDay.

(** MakeDay: the month argument is 0-based and may overflow into other years. *)
Definition MakeDay (year month date : Z) : Z :=
  let ym := year + month / 12 in
  let mn := month mod 12 in
  DayFromYear ym + month_start (is_leap ym) (mn + 1) + date - 1.

Definition MakeDate (day tm : Z) : Z := day * msPerDay + tm.

(** NaN-propagating arithmetic on numbers. *)
Definition num_add (v : option Z) (k : Z) : option Z := option_map (fun x => x + k) v.

(** [v !== x]: NaN differs from every number. *)
Definition differs (v : option Z) (x : Z) : bool :=
  match v with Some v => negb (v =? x) | None => true end.

Section DateMethods.
(** The local time-zone offset (LocalTZA) of the runtime, in milliseconds. *)
Variable off : Z.

Definition local_civil (t : Z) : Z * Z * Z := civil_from_days (Day (t + off)).

Definition getDay (t : time) : option Z :=
  option_map (fun t => week_day (Day (t + off))) t.
Definition getDate (t : time) : option Z :=
  option_map (fun t => let '(_, _, d) := local_civil t in d) t.
Definition getMonth (t : time) : option Z :=
  option_map (fun t => let '(_, m, _) := local_civil t in m - 1) t.
Definition getFullYear (t : time) : option Z :=
  option_map (fun t => let '(y, _, _) := local_civil t in y) t.

Definition setDate (t : time) (dt : option Z) : time :=
  match t, dt with
  | Some t, Some dt =>
      let '(y, m, _) := local_civil t in
      TimeClip (MakeDate (MakeDay y (m - 1) dt) (TimeWithinDay (t + off)) - off)
  | _, _ => None
  end.

Definition setMonth (t : time) (mo : option Z) : time :=
  match t, mo with
  | Some t, Some mo =>
      let '(y, _, d) := local_civil t in
      TimeClip (MakeDate (MakeDay y mo d) (TimeWithinDay (t + off)) - off)
  | _, _ => None
  end.

(** setFullYear starts from +0 when the date is invalid. *)
Definition setFullYear (t : time) (yr : option Z) : time :=
  let l := match t with Some t => t + off | None => 0 end in
  match yr with
  | Some yr =>
      let '(_, m, d) := civil_from_days (Day l) in
      TimeClip (MakeDate (MakeDay yr (m - 1) d) (TimeWithinDay l) - off)
  | None => None
  end.

(** [new Date(year, monthIndex, day)]: local midnight; years 0..99 mean 1900..1999. *)
Definition newDate (y mo d : option Z) : time :=
  match y, mo, d with
  | Some y, Some mo, Some d =>
      let yr := if (0 <=? y) && (y <=? 99) then 1900 + y else y in
      TimeClip (MakeDate (MakeDay yr mo d) 0 - off)
  | _, _, _ => None
  end.
End DateMethods.

(** ** Strings: [split] and [parseInt] *)

Definition is_ws (c : ascii) : bool :=
  let n := nat_of_ascii c in
  (n =? 32)%nat || (n =? 9)%nat || (n =? 10)%nat || (n =? 11)%nat
  || (n =? 12)%nat || (n =? 13)%nat.

Fixpoint trim_start (s : string) : string :=
  match s with
  | String c s' => if is_ws c then trim_start s' else s
  | EmptyString => EmptyString
  end.

Definition digit_val (c : ascii) : option Z :=
  let n := Z.of_nat (nat_of_ascii c) in
  if (48 <=? n) && (n <=? 57) then Some (n - 48)
  else if (97 <=? n) && (n <=? 122) then Some (n - 87)
  else if (65 <=? n) && (n <=? 90) then Some (n - 55)
  else None.

Fixpoint take_digits (radix : Z) (s : string) : list Z :=
  match s with
  | String c s' =>
      match digit_val c with
      | Some v => if v <? radix then v :: take_digits radix s' else []
      | None => []
      end
  | EmptyString => []
  end.

Definition digits_value (radix : Z) (l : list Z) : Z :=
  fold_left (fun acc v => acc * radix + v) l 0.

(** [parseInt(s)] without a radix: leading white space, a sign, an optional
    [0x] prefix, then the longest run of digits; no digit gives NaN. *)
Definition parseInt (s : string) : option Z :=
  let s := trim_start s in
  let '(sign, s) :=
    match s with
    | String "-" s' => (-1, s')
    | String "+" s' => (1, s')
    | _ => (1, s)
    end in
  let '(radix, s) :=
    match s with
    | String "0" (String c s') =>
        if Ascii.eqb c "x" || Ascii.eqb c "X" then (16, s') else (10, s)
    | _ => (10, s)
    end in
  match take_digits radix s with
  | [] => None
  | l => Some (sign * digits_value radix l)
  end.

(** [s.split(sep)] for a one-character separator. *)
Fixpoint split_on (sep : ascii) (s : string) : list string :=
  match s with
  | EmptyString => [EmptyString]
  | String c s' =>
      if Ascii.eqb c sep then EmptyString :: split_on sep s'
      else match split_on sep s' with
           | p :: ps => String c p :: ps
           | [] => [String c EmptyString]
           end
  end.

(** ** Events (src/shared/schema.ts) *)

(** A [startDate]/[endDate] as the resolver receives it: a string, or a
    [Date] object holding a time value. *)
Inductive dateval :=
| DStr (s : string)
| DObj (t : time).

Record Event := {
  id : string;
  title : string;
  dateType : string;
  startDate : option dateval;
  endDate : option dateval;
  nthOccurrence : option Z;
  dayOfWeek : option Z;
  month : option Z;
  baseYear : option Z;
  relativePeriod : option Z;
  relativeUnit : option string;
  relativeDirection : option string;
  relativeEventName : option string
}.

(** JavaScript truthiness of the optional fields ([null]/[undefined] is [None]). *)
Definition truthy_num (v : option Z) : bool :=
  match v with Some x => negb (x =? 0) | None => false end.
Definition truthy_str (v : option string) : bool :=
  match v with Some s => negb (String.eqb s "") | None => false end.
Definition truthy_date (v : option dateval) : bool :=
  match v with
  | Some (DStr s) => negb (String.eqb s "")
  | Some (DObj _) => true
  | None => false
  end.

(** ** Outcomes: a value, a thrown [Error], or a computation that does not
    finish within its fuel (a loop that keeps running, or a recursion that
    keeps descending until the call stack overflows). *)

Inductive error :=
| NoOccurrence (n : Z)       (* Error(`No ${nthOccurrence} occurrence in month`) *)
| InvalidUnit (unit : string). (* Error(`Invalid unit: ${unit}`) *)

Inductive outcome (A : Type) :=
| Ret (a : A)
| Throw (e : error)
| Diverge.
Arguments Ret {A} a.
Arguments Throw {A} e.
Arguments Diverge {A}.

(** ** calculateNthDate *)

Section NthDate.
Variable off : Z.
Variable dayOfWeek : Z.

(** [while (date.getDay() !== dayOfWeek) date.setDate(date.getDate() + 1)] *)
Fixpoint scan_forward (fuel : nat) (date : time) : outcome time :=
  match fuel with
  | O => Diverge
  | S f =>
      if differs (getDay off date) dayOfWeek
      then scan_forward f (setDate off date (num_add (getDate off date) 1))
      else Ret date
  end.

(** [while (lastDate.getDay() !== dayOfWeek) lastDate.setDate(lastDate.getDate() - 1)] *)
Fixpoint scan_backward (fuel : nat) (date : time) : outcome time :=
  match fuel with
  | O => Diverge
  | S f =>
      if differs (getDay off date) dayOfWeek
      then scan_backward f (setDate off date (num_add (getDate off date) (-1)))
      else Ret date
  end.
End NthDate.

Definition calculateNthDate (fuel : nat) (off : Z)
    (nthOccurrence dayOfWeek month year : Z) : outcome time :=
  let firstDay := newDate off (Some year) (Some (month - 1)) (Some 1) in
  match scan_forward off dayOfWeek fuel firstDay with
  | Diverge => Diverge
  | Throw e => Throw e
  | Ret date =>
      if nthOccurrence =? -1 then
        let lastDay := newDate off (Some year) (Some month) (Some 0) in
        scan_backward off dayOfWeek fuel lastDay
      else
        let date := setDate off date (num_add (getDate off date) ((nthOccurrence - 1) * 7)) in
        if differs (getMonth off date) (month - 1)
        then Throw (NoOccurrence nthOccurrence)
        else Ret date
  end.

(** ** calculateRelativeDate *)

Definition multiplier (direction : string) : Z :=
  if String.eqb direction "before" then -1 else 1.

Definition calculateRelativeDate (off : Z) (baseDate : time) (period : Z)
    (unit direction : string) : outcome time :=
  let result := baseDate in
  let k := period * multiplier direction in
  if String.eqb unit "days" then
    Ret (setDate off result (num_add (getDate off result) k))
  else if String.eqb unit "weeks" then
    Ret (setDate off result (num_add (getDate off result) (period * 7 * multiplier direction)))
  else if String.eqb unit "months" then
    Ret (setMonth off result (num_add (getMonth off result) k))
  else if String.eqb unit "years" then
    Ret (setFullYear off result (num_add (getFullYear off result) k))
  else Throw (InvalidUnit unit).

(** ** calculateEventDate *)

(** [parseSimpleDate]: a string is split on ['T'] and ['-'] and its parts
    go through [parseInt] into the local-time constructor; a missing part
    is [undefined], which [parseInt] reads as NaN.  Any other value is copied. *)
Definition parseSimpleDate (off : Z) (v : dateval) : time :=
  match v with
  | DStr s =>
      let parts := split_on "-" (hd EmptyString (split_on "T" s)) in
      let part i := match nth_error parts i with
                    | Some p => p
                    | None => "undefined"%string
                    end in
      newDate off (parseInt (part 0%nat)) (num_add (parseInt (part 1%nat)) (-1))
        (parseInt (part 2%nat))
  | DObj t => t
  end.

Definition title_is (name : string) (e : Event) : bool := String.eqb e.(title) name.

(** [nowYear] is [new Date().getFullYear()] at the time of the call.  [None]
    is JavaScript's [null]; [Diverge] is a recursion without end. *)
Fixpoint calculateEventDate (fuel : nat) (off nowYear : Z) (event : Event)
    (allEvents : list Event) : outcome (option time) :=
  match fuel with
  | O => Diverge
  | S fuel' =>
    if String.eqb event.(dateType) "fixed" then
      match event.(startDate) with
      | Some v => if truthy_date (Some v) then Ret (Some (parseSimpleDate off v)) else Ret None
      | None => Ret None
      end
    else if String.eqb event.(dateType) "nth" then
      match event.(nthOccurrence), event.(dayOfWeek), event.(month) with
      | Some n, Some dow, Some m =>
          if negb (truthy_num (Some n)) || negb (truthy_num (Some m)) then Ret None
          else
            let yr := if truthy_num event.(baseYear)
                      then match event.(baseYear) with Some y => y | None => nowYear end
                      else nowYear in
            match calculateNthDate fuel' off n dow m yr with
            | Ret t => Ret (Some t)
            | Throw _ => Ret None
            | Diverge => Diverge
            end
      | _, _, _ => Ret None
      end
    else if String.eqb event.(dateType) "relative" then
      match event.(relativeEventName), event.(relativePeriod),
            event.(relativeUnit), event.(relativeDirection) with
      | Some name, Some period, Some unit, Some dir =>
          if negb (truthy_str (Some name)) || negb (truthy_num (Some period))
             || negb (truthy_str (Some unit)) || negb (truthy_str (Some dir))
          then Ret None
          else
            match find (title_is name) allEvents with
            | None => Ret None
            | Some referenceEvent =>
                match calculateEventDate fuel' off nowYear referenceEvent allEvents with
                | Ret None => Ret None
                | Ret (Some referenceDate) =>
                    match calculateRelativeDate off referenceDate period unit dir with
                    | Ret t => Ret (Some t)
                    | Throw _ => Ret None
                    | Diverge => Diverge
                    end
                | Throw e => Throw e
                | Diverge => Diverge
                end
            end
      | _, _, _, _ => Ret None
      end
    else Ret None
  end.

(** ** Reading of the results, and the calendar facts the spec refers to *)

(** The local civil date a [Date] shows through getFullYear/getMonth/getDate. *)
Definition civil_of (off : Z) (t : time) : option (Z * Z * Z) :=
  option_map (local_civil off) t.

(** The [Date] at local midnight of the civil date [y-m-d]. *)
Definition local_midnight (off y m d : Z) : time :=
  Some (days_from_civil y m d * msPerDay - off).

Definition weekday_of (y m d : Z) : Z := week_day (days_from_civil y m d).

(** [f] is the first day of month [m] of [y] falling on weekday [dow]. *)
Definition is_first_weekday (y m dow f : Z) : Prop :=
  1 <= f <= days_in_month y m /\ weekday_of y m f = dow /\
  (forall d, 1 <= d < f -> weekday_of y m d <> dow).

(** [l] is the last day of month [m] of [y] falling on weekday [dow]. *)
Definition is_last_weekday (y m dow l : Z) : Prop :=
  1 <= l <= days_in_month y m /\ weekday_of y m l = dow /\
  (forall d, l < d <= days_in_month y m -> weekday_of y m d <> dow).



(** Fixed-width decimal rendering, as in a ['YYYY-MM-DD'] date string. *)
Definition digit_char (x : Z) : ascii := ascii_of_nat (48 + Z.to_nat x).

Fixpoint pad_digits (w : nat) (v : Z) : string :=
  match w with
  | O => EmptyString
  | S w' => String (digit_char ((v / 10 ^ Z.of_nat w') mod 10)) (pad_digits w' v)
  end.

Definition ymd_string (y m d : Z) : string :=
  pad_digits 4 y ++ String "-" (pad_digits 2 m ++ String "-" (pad_digits 2 d)).

(** The digits [pad_digits] writes, as numbers. *)
Fixpoint digits_of (w : nat) (v : Z) : list Z :=
  match w with
  | O => []
  | S w' => (v / 10 ^ Z.of_nat w') mod 10 :: digits_of w' v
  end.

(** Whether a string contains a character. *)
Fixpoint has_char (c : ascii) (s : string) : bool :=
  match s with
  | EmptyString => false
  | String c' s' => Ascii.eqb c' c || has_char c s'
  end.

(** The event that resolving [x] recurses into: a relative event with its
    four fields set finds its reference by title. *)
Definition reference_of (allEvents : list Event) (x : Event) : option Event :=
  if String.eqb x.(dateType) "relative" then
    match x.(relativeEventName), x.(relativePeriod), x.(relativeUnit), x.(relativeDirection) with
    | Some name, Some period, Some unit, Some dir =>
        if truthy_str (Some name) && truthy_num (Some period)
           && truthy_str (Some unit) && truthy_str (Some dir)
        then find (title_is name) allEvents else None
    | _, _, _, _ => None
    end
  else None.

(** The events a resolution of [e] involves: [e] itself and every event
    reached from it by following references. *)
Inductive involved (allEvents : list Event) (e : Event) : Event -> Prop :=
| involved_self : involved allEvents e e
| involved_ref x r : involved allEvents e x -> reference_of allEvents x = Some r ->
    involved allEvents e r.

(** ** Sample events *)

Definition fixed_event (i t : string) (s : string) : Event :=
  {| id := i; title := t; dateType := "fixed"; startDate := Some (DStr s);
     endDate := None; nthOccurrence := None; dayOfWeek := None; month := None;
     baseYear := None; relativePeriod := None; relativeUnit := None;
     relativeDirection := None; relativeEventName := None |}.

Definition nth_event (i t : string) (n dow m : Z) (y : option Z) : Event :=
  {| id := i; title := t; dateType := "nth"; startDate := None; endDate := None;
     nthOccurrence := Some n; dayOfWeek := Some dow; month := Some m;
     baseYear := y; relativePeriod := None; relativeUnit := None;
     relativeDirection := None; relativeEventName := None |}.

Definition relative_event (i t : string) (period : Z) (unit dir name : string) : Event :=
  {| id := i; title := t; dateType := "relative"; startDate := None; endDate := None;
     nthOccurrence := None; dayOfWeek := None; month := None; baseYear := None;
     relativePeriod := Some period; relativeUnit := Some unit;
     relativeDirection := Some dir; relativeEventName := Some name |}.

(** A relative event that refers to itself, and two that refer to each other. *)
Definition self_ref : Event := relative_event "1" "Rehearsal" 1 "days" "before" "Rehearsal".
Definition pair_a : Event := relative_event "2" "Setup" 2 "days" "before" "Teardown".
Definition pair_b : Event := relative_event "3" "Teardown" 3 "days" "after" "Setup".

(** A relative event with an invalid unit that refers to itself. *)
Definition bad_unit_self : Event :=
  relative_event "4" "Loop" 1 "fortnights" "after" "Loop".

(** One event per failure cause of the resolver. *)
Definition christmas : Event := fixed_event "10" "Christmas" "2024-12-25".
Definition no_start : Event :=
  {| id := "11"; title := "Undated"; dateType := "fixed"; startDate := None;
     endDate := None; nthOccurrence := None; dayOfWeek := None; month := None;
     baseYear := None; relativePeriod := None; relativeUnit := None;
     relativeDirection := None; relativeEventName := None |}.
Definition fifth_monday : Event := nth_event "12" "Fifth Monday" 5 1 2 (Some 2023).
Definition bad_unit : Event := relative_event "13" "Odd" 1 "fortnights" "after" "Christmas".
Definition dangling : Event := relative_event "14" "Orphan" 3 "days" "before" "Easter".
Definition failure_snapshot : list Event :=
  [christmas; no_start; fifth_monday; bad_unit; dangling].

(** An nth event without a base year: Thanksgiving, the 4th Thursday of November. *)
Definition thanksgiving : Event := nth_event "20" "Thanksgiving" 4 4 11 None.

(** An nth event whose dayOfWeek is null, and a relative event whose period is 0. *)
Definition no_weekday : Event :=
  {| id := "15"; title := "Undecided"; dateType := "nth"; startDate := None; endDate := None;
     nthOccurrence := Some 2; dayOfWeek := None; month := Some 5; baseYear := Some 2024;
     relativePeriod := None; relativeUnit := None; relativeDirection := None;
     relativeEventName := None |}.
Definition blank_period : Event := relative_event "16" "Blank" 0 "days" "after" "Christmas".

(** Boxing Day after Christmas, beside an nth event without a base year. *)
Definition boxing_day : Event := relative_event "21" "Boxing Day" 1 "days" "after" "Christmas".
Definition holiday_snapshot : list Event := [thanksgiving; christmas; boxing_day].

(** Day numbers whose midnights are valid time values under any offset
    of less than a day. *)
Definition in_range (n : Z) : Prop := -99999990 <= n <= 99999990.

(** ** Further definitions *)

(** The month after month [m] of year [y]. *)
Definition next_month (y m : Z) : Z * Z := if m =? 12 then (y + 1, 1) else (y, m + 1).

(** ** The ICS export route (src/server/routes.ts, GET /api/events/export/ics)

    [String(n)] for an integer [n]: its decimal digits, [-] before a
    negative one, [NaN] for the invalid time value's fields (date fields are
    far below 10^21, where JavaScript would switch to exponent notation).
    [digit_count] counts the digits, with [log2 |n|] as fuel. *)
Fixpoint digit_count (fuel : nat) (n : Z) : nat :=
  match fuel with
  | O => 1%nat
  | S f => if n <? 10 then 1%nat else S (digit_count f (n / 10))
  end.

Definition number_string (v : option Z) : string :=
  match v with
  | None => "NaN"
  | Some n =>
      let a := Z.abs n in
      let s := pad_digits (digit_count (Z.to_nat (Z.log2 a)) a) a in
      if n <? 0 then String "-" s else s
  end.

(** [s.padStart(len, c)] for a one-character [c]. *)
Fixpoint repeat_char (n : nat) (c : ascii) : string :=
  match n with O => EmptyString | S k => String c (repeat_char k c) end.

Definition padStart (len : nat) (c : ascii) (s : string) : string :=
  repeat_char (len - String.length s) c ++ s.

(** [formatDateForAllDay]: [`${year}${month}${day}`]. *)
Definition formatDateForAllDay (off : Z) (date : time) : string :=
  number_string (getFullYear off date)
  ++ padStart 2 "0" (number_string (num_add (getMonth off date) 1))
  ++ padStart 2 "0" (number_string (getDate off date)).

(** The [YYYYMMDD] rendering of a calendar date. *)
Definition ymd_compact (y m d : Z) : string :=
  pad_digits 4 y ++ pad_digits 2 m ++ pad_digits 2 d.

(** The body of the export loop that picks [eventStart] and [eventEnd]:
    [Ret None] is a [continue], [Ret (Some (start, end))] an exported event.
    [next_day d] is [eventEnd = new Date(d); eventEnd.setDate(d.getDate() + 1)]. *)
Definition ics_event_dates (fuel : nat) (off nowYear : Z) (event : Event)
    (events : list Event) : outcome (option (time * time)) :=
  let next_day (d : time) := setDate off d (num_add (getDate off d) 1) in
  match fuel with
  | O => Diverge
  | S fuel' =>
    if String.eqb event.(dateType) "fixed" then
      match event.(startDate) with
      | Some v =>
          if truthy_date (Some v) then
            let eventStart := parseSimpleDate off v in
            let eventEnd :=
              if truthy_date event.(endDate)
              then match event.(endDate) with
                   | Some w => next_day (parseSimpleDate off w)
                   | None => next_day eventStart
                   end
              else next_day eventStart in
            Ret (Some (eventStart, eventEnd))
          else Ret None
      | None => Ret None
      end
    else if String.eqb event.(dateType) "nth" then
      match event.(nthOccurrence), event.(dayOfWeek), event.(month) with
      | Some n, Some dow, Some m =>
          if negb (truthy_num (Some n)) || negb (truthy_num (Some m)) then Ret None
          else
            let baseYear := if truthy_num event.(baseYear)
                            then match event.(baseYear) with Some y => y | None => nowYear end
                            else nowYear in
            match calculateNthDate fuel' off n dow m baseYear with
            | Ret eventStart => Ret (Some (eventStart, next_day eventStart))
            | Throw _ => Ret None
            | Diverge => Diverge
            end
      | _, _, _ => Ret None
      end
    else if String.eqb event.(dateType) "relative" then
      match calculateEventDate fuel off nowYear event events with
      | Ret (Some calculatedDate) => Ret (Some (calculatedDate, next_day calculatedDate))
      | Ret None => Ret None
      | Throw e => Throw e
      | Diverge => Diverge
      end
    else Ret None
  end.

(** The time value one day of 86400000 ms later. *)
Definition day_after (t : time) : time :=
  match t with Some x => TimeClip (x + msPerDay) | None => None end.

(** ** Event storage (MemStorage, src/server/storage.ts) and the event routes

    [MemStorage.events] is a JavaScript [Map] from id to event: an
    association list in insertion order; [Map.set] on a present key keeps
    its position, on a new key appends it, [Map.delete] removes it.
    [createdAt] is [new Date()] at creation, as a time value. *)
Record StoredEvent := { event : Event; createdAt : Z }.

Definition Store := list (string * StoredEvent).

Fixpoint map_get (s : Store) (k : string) : option StoredEvent :=
  match s with
  | [] => None
  | (k', v) :: s' => if String.eqb k' k then Some v else map_get s' k
  end.

Fixpoint map_set (s : Store) (k : string) (v : StoredEvent) : Store :=
  match s with
  | [] => [(k, v)]
  | (k', v') :: s' => if String.eqb k' k then (k, v) :: s' else (k', v') :: map_set s' k v
  end.

Fixpoint map_delete (s : Store) (k : string) : bool * Store :=
  match s with
  | [] => (false, [])
  | (k', v) :: s' =>
      if String.eqb k' k then (true, s')
      else let '(b, r) := map_delete s' k in (b, (k', v) :: r)
  end.

(** [Array.prototype.sort] by [createdAt] is a stable sort: insertion
    sort that keeps equal keys in their original order. *)
Fixpoint insert_by_createdAt (x : StoredEvent) (l : list StoredEvent) : list StoredEvent :=
  match l with
  | [] => [x]
  | y :: l' => if createdAt x <? createdAt y then x :: l else y :: insert_by_createdAt x l'
  end.

Definition getEvent (s : Store) (k : string) : option StoredEvent := map_get s k.

Definition getAllEvents (s : Store) : list StoredEvent :=
  fold_left (fun acc x => insert_by_createdAt x acc) (map snd s) [].

(** [{ ...insertEvent, id, createdAt }]. *)
Definition with_id (e : Event) (i : string) : Event :=
  {| id := i; title := e.(title); dateType := e.(dateType);
     startDate := e.(startDate); endDate := e.(endDate);
     nthOccurrence := e.(nthOccurrence); dayOfWeek := e.(dayOfWeek); month := e.(month);
     baseYear := e.(baseYear); relativePeriod := e.(relativePeriod);
     relativeUnit := e.(relativeUnit); relativeDirection := e.(relativeDirection);
     relativeEventName := e.(relativeEventName) |}.

Definition createEvent (s : Store) (insertEvent : Event) (newId : string) (now : Z)
    : StoredEvent * Store :=
  let ev := {| event := with_id insertEvent newId; createdAt := now |} in
  (ev, map_set s newId ev).

(** [Partial<InsertEvent>]: [None] for a field the update leaves out. *)
Record Patch := {
  p_title : option string;
  p_dateType : option string;
  p_startDate : option (option dateval);
  p_endDate : option (option dateval);
  p_nthOccurrence : option (option Z);
  p_dayOfWeek : option (option Z);
  p_month : option (option Z);
  p_baseYear : option (option Z);
  p_relativePeriod : option (option Z);
  p_relativeUnit : option (option string);
  p_relativeDirection : option (option string);
  p_relativeEventName : option (option string)
}.

Definition override {A : Type} (p : option A) (v : A) : A :=
  match p with Some x => x | None => v end.

Definition apply_patch (e : Event) (p : Patch) : Event :=
  {| id := e.(id); title := override p.(p_title) e.(title);
     dateType := override p.(p_dateType) e.(dateType);
     startDate := override p.(p_startDate) e.(startDate);
     endDate := override p.(p_endDate) e.(endDate);
     nthOccurrence := override p.(p_nthOccurrence) e.(nthOccurrence);
     dayOfWeek := override p.(p_dayOfWeek) e.(dayOfWeek);
     month := override p.(p_month) e.(month);
     baseYear := override p.(p_baseYear) e.(baseYear);
     relativePeriod := override p.(p_relativePeriod) e.(relativePeriod);
     relativeUnit := override p.(p_relativeUnit) e.(relativeUnit);
     relativeDirection := override p.(p_relativeDirection) e.(relativeDirection);
     relativeEventName := override p.(p_relativeEventName) e.(relativeEventName) |}.

Definition updateEvent (s : Store) (k : string) (updateData : Patch)
    : option StoredEvent * Store :=
  match map_get s k with
  | None => (None, s)
  | Some existing =>
      let updated := {| event := apply_patch existing.(event) updateData;
                        createdAt := existing.(createdAt) |} in
      (Some updated, map_set s k updated)
  end.

Definition deleteEvent (s : Store) (k : string) : bool * Store := map_delete s k.

(** DELETE /api/events: delete every event of [getAllEvents()] by id and
    count the deletions that returned [true]. *)
Definition clearAllEvents (s : Store) : nat * Store :=
  fold_left (fun '(deletedCount, st) ev =>
               let '(deleted, st') := deleteEvent st ev.(event).(id) in
               (if deleted then S deletedCount else deletedCount, st'))
            (getAllEvents s) (0%nat, s).

(** POST /api/events/update-year: [{ baseYear: newYear }] for every nth event. *)
Definition year_patch (y : Z) : Patch :=
  {| p_title := None; p_dateType := None; p_startDate := None; p_endDate := None;
     p_nthOccurrence := None; p_dayOfWeek := None; p_month := None;
     p_baseYear := Some (Some y); p_relativePeriod := None; p_relativeUnit := None;
     p_relativeDirection := None; p_relativeEventName := None |}.

Inductive year_response :=
| YearInvalid
| YearUpdated (updatedCount : nat) (year : Z).

(** [newYear] is [None] when it is missing or not a number. *)
Definition updateYear (s : Store) (newYear : option Z) : year_response * Store :=
  match newYear with
  | Some y =>
      if (y =? 0) || (y <? 2020) || (2050 <? y) then (YearInvalid, s)
      else
        let '(n, st) :=
          fold_left (fun '(n, st) ev =>
                       if String.eqb ev.(event).(dateType) "nth"
                       then (S n, snd (updateEvent st ev.(event).(id) (year_patch y)))
                       else (n, st))
                    (getAllEvents s) (0%nat, s) in
        (YearUpdated n y, st)
  | None => (YearInvalid, s)
  end.

(** A store as MemStorage builds it: distinct keys, each event stored under its id. *)
Definition store_ok (s : Store) : Prop :=
  NoDup (map fst s) /\ Forall (fun kv => (snd kv).(event).(id) = fst kv) s.

(** The store after the update-year loop, entry by entry. *)
Definition is_nth (v : StoredEvent) : bool := String.eqb v.(event).(dateType) "nth".

Definition mark (f : StoredEvent -> StoredEvent) (done : list string) (s : Store) : Store :=
  map (fun kv => (fst kv, if existsb (String.eqb (fst kv)) done then f (snd kv) else snd kv)) s.

Definition set_baseYear (e : Event) (y : Z) : Event :=
  {| id := e.(id); title := e.(title); dateType := e.(dateType);
     startDate := e.(startDate); endDate := e.(endDate);
     nthOccurrence := e.(nthOccurrence); dayOfWeek := e.(dayOfWeek); month := e.(month);
     baseYear := Some y; relativePeriod := e.(relativePeriod);
     relativeUnit := e.(relativeUnit); relativeDirection := e.(relativeDirection);
     relativeEventName := e.(relativeEventName) |}.

Definition year_update (y : Z) (v : StoredEvent) : StoredEvent :=
  if is_nth v then {| event := set_baseYear v.(event) y; createdAt := v.(createdAt) |} else v.

(** ** The client's ICS export helpers (src/client/src/lib/ics-export.ts)

    The client copies of [calculateNthDate] and [calculateEventDate]
    differ from the server's: [dayOfWeek] is passed on as the event has it
    (schema type [number | null]; [None] is [null]), and a [calculateRelativeDate]
    error is not caught.  [dateParse] is [new Date(string)]. *)
Module Client.

Definition differs_dow (v : option Z) (dayOfWeek : option Z) : bool :=
  match dayOfWeek with Some x => differs v x | None => true end.

Section NthDate.
Variable off : Z.
Variable dayOfWeek : option Z.

Fixpoint scan_forward (fuel : nat) (date : time) : outcome time :=
  match fuel with
  | O => Diverge
  | S f =>
      if differs_dow (getDay off date) dayOfWeek
      then scan_forward f (setDate off date (num_add (getDate off date) 1))
      else Ret date
  end.

Fixpoint scan_backward (fuel : nat) (date : time) : outcome time :=
  match fuel with
  | O => Diverge
  | S f =>
      if differs_dow (getDay off date) dayOfWeek
      then scan_backward f (setDate off date (num_add (getDate off date) (-1)))
      else Ret date
  end.
End NthDate.

Definition calculateNthDate (fuel : nat) (off : Z) (nthOccurrence : Z)
    (dayOfWeek : option Z) (month year : Z) : outcome time :=
  let firstDay := newDate off (Some year) (Some (month - 1)) (Some 1) in
  match scan_forward off dayOfWeek fuel firstDay with
  | Diverge => Diverge
  | Throw e => Throw e
  | Ret date =>
      if nthOccurrence =? -1 then
        let lastDay := newDate off (Some year) (Some month) (Some 0) in
        scan_backward off dayOfWeek fuel lastDay
      else
        let date := setDate off date (num_add (getDate off date) ((nthOccurrence - 1) * 7)) in
        if differs (getMonth off date) (month - 1)
        then Throw (NoOccurrence nthOccurrence)
        else Ret date
  end.

Section EventDate.
Variable dateParse : string -> time.

Definition new_Date (v : dateval) : time :=
  match v with DStr s => dateParse s | DObj t => t end.

Fixpoint calculateEventDate (fuel : nat) (off nowYear : Z) (event : Event)
    (allEvents : list Event) : outcome (option time) :=
  match fuel with
  | O => Diverge
  | S fuel' =>
    if String.eqb event.(dateType) "fixed" then
      if truthy_date event.(startDate)
      then match event.(startDate) with
           | Some v => Ret (Some (new_Date v))
           | None => Ret None
           end
      else Ret None
    else if String.eqb event.(dateType) "nth" then
      match event.(nthOccurrence), event.(month) with
      | Some n, Some m =>
          if truthy_num (Some n) && truthy_num (Some m) then
            let yr := if truthy_num event.(baseYear)
                      then match event.(baseYear) with Some y => y | None => nowYear end
                      else nowYear in
            match calculateNthDate fuel' off n event.(dayOfWeek) m yr with
            | Ret t => Ret (Some t)
            | Throw _ => Ret None
            | Diverge => Diverge
            end
          else Ret None
      | _, _ => Ret None
      end
    else if String.eqb event.(dateType) "relative" then
      match event.(relativeEventName), event.(relativePeriod),
            event.(relativeUnit), event.(relativeDirection) with
      | Some name, Some period, Some unit, Some dir =>
          if truthy_str (Some name) && truthy_num (Some period)
             && truthy_str (Some unit) && truthy_str (Some dir)
          then
            match find (title_is name) allEvents with
            | Some referenceEvent =>
                match calculateEventDate fuel' off nowYear referenceEvent allEvents with
                | Ret (Some referenceDate) =>
                    match calculateRelativeDate off referenceDate period unit dir with
                    | Ret t => Ret (Some t)
                    | Throw e => Throw e
                    | Diverge => Diverge
                    end
                | Ret None => Ret None
                | Throw e => Throw e
                | Diverge => Diverge
                end
            | None => Ret None
            end
          else Ret None
      | _, _, _, _ => Ret None
      end
    else Ret None
  end.
End EventDate.

Definition suffix_at (suffix : list string) (i : Z) : option string :=
  if i <? 0 then None else nth_error suffix (Z.to_nat i).

Definition getOrdinalSuffix (n : Z) : string :=
  let suffix := ["th"; "st"; "nd"; "rd"]%string in
  let value := Z.rem n 100 in
  match suffix_at suffix (Z.rem (value - 20) 10) with
  | Some x => x
  | None =>
      match suffix_at suffix value with
      | Some x => x
      | None => match suffix_at suffix 0 with Some x => x | None => EmptyString end
      end
  end.

Fixpoint replace_all (c : ascii) (r : string) (s : string) : string :=
  match s with
  | EmptyString => EmptyString
  | String x s' => if Ascii.eqb x c then r ++ replace_all c r s' else String x (replace_all c r s')
  end.

Definition LF : ascii := ascii_of_nat 10.
Definition CR : ascii := ascii_of_nat 13.

Definition escapeICSValue (value : string) : string :=
  replace_all CR (String "\" "r")
    (replace_all LF (String "\" "n")
      (replace_all "," (String "\" ",")
        (replace_all ";" (String "\" ";")
          (replace_all "\" (String "\" "\") value)))).

End Client.

(** English ordinal suffixes: 11th..13th of each hundred, else by the last digit. *)
Definition english_suffix (n : Z) : string :=
  if (11 <=? n mod 100) && (n mod 100 <=? 13) then "th"%string
  else if n mod 10 =? 1 then "st"%string
  else if n mod 10 =? 2 then "nd"%string
  else if n mod 10 =? 3 then "rd"%string
  else "th"%string.

(** Reading an ICS TEXT value back (RFC 5545, 3.3.11): a backslash
    escapes [\\], [;], [,] and a newline as [n] or [N]. *)
Fixpoint ics_unescape (s : string) : string :=
  match s with
  | String "\" (String c s') =>
      if Ascii.eqb c "\" || Ascii.eqb c ";" || Ascii.eqb c "," then String c (ics_unescape s')
      else if Ascii.eqb c "n" || Ascii.eqb c "N" then String Client.LF (ics_unescape s')
      else String "\" (String c (ics_unescape s'))
  | String c s' => String c (ics_unescape s')
  | EmptyString => EmptyString
  end.

(** [escapeICSValue] applied to one character. *)
Definition escape_char (c : ascii) : string :=
  if Ascii.eqb c "\" then String "\" (String "\" EmptyString)
  else if Ascii.eqb c ";" then String "\" (String ";" EmptyString)
  else if Ascii.eqb c "," then String "\" (String "," EmptyString)
  else if Ascii.eqb c Client.LF then String "\" (String "n" EmptyString)
  else if Ascii.eqb c Client.CR then String "\" (String "r" EmptyString)
  else String c EmptyString.

Fixpoint escape_once (s : string) : string :=
  match s with
  | EmptyString => EmptyString
  | String c s' => escape_char c ++ escape_once s'
  end.

(** Sample events and a sample store. *)
Definition new_years_eve : Event := fixed_event "30" "New Year's Eve" "2024-12-31".

Definition undecided : Event := fixed_event "31" "Someday" "TBD".

Definition sample_store : Store :=
  [("a"%string, {| event := with_id christmas "a"; createdAt := 2 |});
   ("b"%string, {| event := with_id thanksgiving "b"; createdAt := 1 |})].

(** * Proofs *)

(** ** Calendar *)

Lemma all_upto_spec : forall k lo p,
  all_upto k lo p = true -> forall x, lo <= x < lo + Z.of_nat k -> p x = true.
Proof.
  induction k as [|k IH]; simpl; intros lo p H x Hx; [lia|].
  apply andb_true_iff in H as [H1 H2].
  destruct (Z.eq_dec x lo) as [->|Hne]; [exact H1|].
  apply (IH (lo + 1)); [exact H2|lia].
Qed.

Lemma div_succ : forall a k, 0 < k ->
  (a + 1) / k = a / k + (if (a + 1) mod k =? 0 then 1 else 0).
Proof.
  intros a k Hk.
  destruct (Z.eqb_spec ((a + 1) mod k) 0) as [E|E];
    pose proof (Z.div_mod a k ltac:(lia)); pose proof (Z.mod_pos_bound a k Hk);
    pose proof (Z.div_mod (a + 1) k ltac:(lia)); pose proof (Z.mod_pos_bound (a + 1) k Hk);
    nia.
Qed.

Lemma mod_shift : forall y c k, 0 < k -> (y - c * k) mod k = y mod k.
Proof.
  intros y c k Hk. replace (y - c * k) with (y + (- c) * k) by ring.
  apply Z_mod_plus_full.
Qed.

Lemma mod400_mod100 : forall y, y mod 400 = 0 -> y mod 100 = 0.
Proof. intros y H. Z.div_mod_to_equations. lia. Qed.

Lemma mod100_mod4 : forall y, y mod 100 = 0 -> y mod 4 = 0.
Proof. intros y H. Z.div_mod_to_equations. lia. Qed.

Lemma DayFromYear_succ : forall y,
  DayFromYear (y + 1) = DayFromYear y + year_len (is_leap y).
Proof.
  intros y. unfold DayFromYear, year_len, is_leap.
  replace (y + 1 - 1969) with ((y - 1969) + 1) by ring.
  replace (y + 1 - 1901) with ((y - 1901) + 1) by ring.
  replace (y + 1 - 1601) with ((y - 1601) + 1) by ring.
  rewrite (div_succ (y - 1969) 4), (div_succ (y - 1901) 100), (div_succ (y - 1601) 400)
    by lia.
  replace (y - 1969 + 1) with (y - 492 * 4) by ring.
  replace (y - 1901 + 1) with (y - 19 * 100) by ring.
  replace (y - 1601 + 1) with (y - 4 * 400) by ring.
  rewrite !mod_shift by lia.
  destruct (y mod 4 =? 0) eqn:E4, (y mod 100 =? 0) eqn:E100, (y mod 400 =? 0) eqn:E400;
    cbn [andb orb negb]; try lia;
    repeat match goal with
           | H : (_ =? _) = true |- _ => apply Z.eqb_eq in H
           | H : (_ =? _) = false |- _ => apply Z.eqb_neq in H
           end;
    exfalso;
    first [ apply E4; apply mod100_mod4; exact E100
          | apply E4; apply mod100_mod4; apply mod400_mod100; exact E400
          | apply E100; apply mod400_mod100; exact E400 ].
Qed.

Lemma year_len_bounds : forall b, 365 <= year_len b <= 366.
Proof. destruct b; simpl; lia. Qed.

Lemma DayFromYear_mono_nat : forall k y,
  DayFromYear y + 365 * Z.of_nat k <= DayFromYear (y + Z.of_nat k).
Proof.
  induction k as [|k IH]; intros y.
  - change (Z.of_nat 0) with 0. replace (y + 0) with y by ring. lia.
  - rewrite Nat2Z.inj_succ.
    replace (y + Z.succ (Z.of_nat k)) with ((y + Z.of_nat k) + 1) by lia.
    rewrite DayFromYear_succ. pose proof (year_len_bounds (is_leap (y + Z.of_nat k))).
    specialize (IH y). lia.
Qed.

Lemma DayFromYear_mono : forall y1 y2, y1 <= y2 ->
  DayFromYear y1 + 365 * (y2 - y1) <= DayFromYear y2.
Proof.
  intros y1 y2 H.
  pose proof (DayFromYear_mono_nat (Z.to_nat (y2 - y1)) y1) as M.
  rewrite Z2Nat.id in M by lia. replace (y1 + (y2 - y1)) with y2 in M by ring. exact M.
Qed.

Lemma YearFromDays_window : forall n,
  let e := 1970 + (400 * n) / 146097 in
  DayFromYear (e - 1) <= n < DayFromYear (e + 2).
Proof.
  intros n e. subst e. unfold DayFromYear. Z.div_mod_to_equations. lia.
Qed.

Lemma YearFromDays_spec : forall n,
  DayFromYear (YearFromDays n) <= n < DayFromYear (YearFromDays n + 1).
Proof.
  intros n. pose proof (YearFromDays_window n) as W. cbv zeta in W.
  unfold YearFromDays. set (e := 1970 + (400 * n) / 146097) in *.
  destruct (DayFromYear (e + 1) <=? n) eqn:E1.
  - apply Z.leb_le in E1. destruct (DayFromYear (e + 2) <=? n) eqn:E2.
    + apply Z.leb_le in E2. lia.
    + apply Z.leb_gt in E2. replace (e + 1 + 1) with (e + 2) by ring. lia.
  - apply Z.leb_gt in E1. destruct (DayFromYear e <=? n) eqn:E0.
    + apply Z.leb_le in E0. lia.
    + apply Z.leb_gt in E0. destruct (DayFromYear (e - 1) <=? n) eqn:Em.
      * apply Z.leb_le in Em. replace (e - 1 + 1) with e by ring. lia.
      * apply Z.leb_gt in Em. lia.
Qed.

Lemma YearFromDays_unique : forall n y,
  DayFromYear y <= n < DayFromYear (y + 1) -> YearFromDays n = y.
Proof.
  intros n y H. pose proof (YearFromDays_spec n) as S.
  set (y' := YearFromDays n) in *.
  destruct (Z.lt_trichotomy y' y) as [Hl|[He|Hg]]; [|exact He|].
  - pose proof (DayFromYear_mono (y' + 1) y ltac:(lia)). lia.
  - pose proof (DayFromYear_mono (y + 1) y' ltac:(lia)). lia.
Qed.

Lemma doy_decode_ok : forall leap, doy_decode_b leap = true.
Proof. destruct leap; vm_compute; reflexivity. Qed.

Lemma doy_encode_ok : forall leap, doy_encode_b leap = true.
Proof. destruct leap; vm_compute; reflexivity. Qed.

Lemma next_month_ok : forall leap, next_month_b leap = true.
Proof. destruct leap; vm_compute; reflexivity. Qed.

Lemma doy_decode : forall leap doy, 0 <= doy < year_len leap ->
  let m := month_of_doy leap doy in
  1 <= m <= 12 /\ 1 <= doy - month_start leap m + 1 <= days_in_month_l leap m.
Proof.
  intros leap doy H m.
  pose proof (all_upto_spec _ _ _ (doy_decode_ok leap) doy) as D.
  rewrite Z2Nat.id in D by (destruct leap; simpl; lia).
  specialize (D ltac:(lia)). cbv zeta in D.
  repeat rewrite andb_true_iff in D. rewrite !Z.leb_le in D. subst m. lia.
Qed.

Lemma doy_encode : forall leap m d,
  1 <= m <= 12 -> 1 <= d <= days_in_month_l leap m ->
  0 <= month_start leap m + d - 1 < year_len leap /\
  month_of_doy leap (month_start leap m + d - 1) = m.
Proof.
  intros leap m d Hm Hd.
  pose proof (all_upto_spec _ _ _ (doy_encode_ok leap) m ltac:(simpl; lia)) as D.
  cbv beta in D.
  assert (Hdim : 0 <= days_in_month_l leap m)
    by (unfold days_in_month_l; destruct leap;
        repeat match goal with |- context [if ?c then _ else _] => destruct c end; lia).
  pose proof (all_upto_spec _ _ _ D d) as D2.
  rewrite Z2Nat.id in D2 by exact Hdim.
  specialize (D2 ltac:(lia)). cbv zeta in D2.
  repeat rewrite andb_true_iff in D2.
  rewrite Z.leb_le, Z.ltb_lt, Z.eqb_eq in D2. lia.
Qed.

(** Every day number is a valid civil date, which encodes back to it. *)
Lemma civil_from_days_ok : forall n y m d,
  civil_from_days n = (y, m, d) -> valid_civil y m d /\ days_from_civil y m d = n.
Proof.
  intros n y m d H. unfold civil_from_days in H. injection H as Hy Hm Hd.
  pose proof (YearFromDays_spec n) as S. rewrite Hy in S.
  rewrite DayFromYear_succ in S.
  pose proof (doy_decode (is_leap y) (n - DayFromYear y) ltac:(lia)) as [M D].
  rewrite Hy in Hm, Hd. rewrite Hm in M, D, Hd.
  unfold valid_civil, days_in_month, days_from_civil. split; [lia|].
  rewrite <- Hd. ring.
Qed.

(** Every valid civil date decodes back from its day number. *)
Lemma days_from_civil_ok : forall y m d,
  valid_civil y m d -> civil_from_days (days_from_civil y m d) = (y, m, d).
Proof.
  intros y m d [Hm Hd]. unfold days_in_month in Hd.
  destruct (doy_encode (is_leap y) m d Hm Hd) as [B E].
  unfold civil_from_days, days_from_civil.
  assert (Y : YearFromDays (DayFromYear y + month_start (is_leap y) m + d - 1) = y).
  { apply YearFromDays_unique. rewrite DayFromYear_succ. lia. }
  rewrite Y.
  replace (DayFromYear y + month_start (is_leap y) m + d - 1 - DayFromYear y)
    with (month_start (is_leap y) m + d - 1) by ring.
  rewrite E. f_equal. ring.
Qed.

Lemma days_from_civil_day : forall y m d,
  days_from_civil y m d = days_from_civil y m 1 + d - 1.
Proof. intros. unfold days_from_civil. ring. Qed.

(** The month after [m] starts [days_in_month y m] days after [m]. *)
Lemma next_month_start : forall y m, 1 <= m <= 12 ->
  days_from_civil y m 1 + days_in_month y m =
  (if m =? 12 then days_from_civil (y + 1) 1 1 else days_from_civil y (m + 1) 1).
Proof.
  intros y m Hm. pose proof (next_month_ok (is_leap y)) as N.
  unfold next_month_b in N. apply andb_true_iff in N as [N1 N2].
  apply Z.eqb_eq in N2.
  destruct (Z.eqb_spec m 12) as [->|Hne].
  - unfold days_from_civil, days_in_month. rewrite DayFromYear_succ.
    change (month_start (is_leap (y + 1)) 1) with 0.
    change (days_in_month_l (is_leap y) 12) with 31. lia.
  - pose proof (all_upto_spec _ _ _ N1 m ltac:(simpl; lia)) as E.
    cbv beta in E. apply Z.eqb_eq in E.
    unfold days_from_civil, days_in_month. lia.
Qed.

Lemma month_start_bounds : forall leap m, 0 <= month_start leap m <= 335.
Proof.
  intros leap m. unfold month_start. destruct leap;
  repeat match goal with |- context [if ?c then _ else _] => destruct c end; lia.
Qed.

Lemma days_in_month_bounds : forall y m, 28 <= days_in_month y m <= 31.
Proof.
  intros y m. unfold days_in_month, days_in_month_l. destruct (is_leap y);
  repeat match goal with |- context [if ?c then _ else _] => destruct c end; lia.
Qed.

Lemma DayFromYear_range : forall y, 99 <= y <= 200002 ->
  -700000 <= DayFromYear y <= 73000000.
Proof. intros y H. unfold DayFromYear. Z.div_mod_to_equations. lia. Qed.

(** Day numbers of the years 100..200000, with a margin of a few weeks,
    stay inside the range of time values. *)
Lemma days_from_civil_range : forall y m d, 100 <= y <= 200000 -> -40 <= d <= 70 ->
  -800000 <= days_from_civil y m d <= 74000000.
Proof.
  intros y m d Hy Hd. unfold days_from_civil.
  pose proof (DayFromYear_range y ltac:(lia)). pose proof (month_start_bounds (is_leap y) m).
  lia.
Qed.

(** ** Date methods *)

Section DateLemmas.
Variable off : Z.
Hypothesis off_ok : Z.abs off < msPerDay.

Lemma Day_local : forall t, Day (t + off) * msPerDay + TimeWithinDay (t + off) = t + off.
Proof.
  intros t. unfold Day, TimeWithinDay.
  pose proof (Z.div_mod (t + off) msPerDay ltac:(unfold msPerDay; lia)). lia.
Qed.

Lemma Day_midnight : forall n, Day (n * msPerDay - off + off) = n.
Proof.
  intros n. unfold Day. replace (n * msPerDay - off + off) with (n * msPerDay) by ring.
  apply Z.div_mul. unfold msPerDay; lia.
Qed.

Lemma local_civil_midnight : forall n,
  local_civil off (n * msPerDay - off) = civil_from_days n.
Proof. intros n. unfold local_civil. rewrite Day_midnight. reflexivity. Qed.

Lemma TimeClip_midnight : forall n, in_range n ->
  TimeClip (n * msPerDay - off) = Some (n * msPerDay - off).
Proof.
  intros n Hn. unfold TimeClip, in_range, maxTime, msPerDay in *.
  replace (Z.abs _ <=? _) with true; [reflexivity|].
  symmetry; apply Z.leb_le. lia.
Qed.

Lemma getDay_midnight : forall n,
  getDay off (Some (n * msPerDay - off)) = Some (week_day n).
Proof. intros n. unfold getDay. simpl. rewrite Day_midnight. reflexivity. Qed.

Lemma getMonth_midnight : forall n y m d, civil_from_days n = (y, m, d) ->
  getMonth off (Some (n * msPerDay - off)) = Some (m - 1).
Proof.
  intros n y m d C. unfold getMonth, option_map. rewrite local_civil_midnight, C. reflexivity.
Qed.

(** [setDate(getDate() + k)] moves the time value by [k] whole days. *)
Lemma setDate_add : forall t k,
  setDate off (Some t) (num_add (getDate off (Some t)) k) = TimeClip (t + k * msPerDay).
Proof.
  intros t k. unfold setDate, getDate, num_add. cbn [option_map].
  pose proof (Day_local t) as L. unfold local_civil.
  destruct (civil_from_days (Day (t + off))) as [[y m] d] eqn:C.
  cbn beta iota.
  apply civil_from_days_ok in C as [[Hm Hd] E].
  f_equal. unfold MakeDate, MakeDay.
  rewrite (Z.div_small (m - 1) 12) by lia. rewrite (Z.mod_small (m - 1) 12) by lia.
  replace (y + 0) with y by ring. replace (m - 1 + 1) with m by ring.
  unfold days_from_civil in E.
  replace (DayFromYear y + month_start (is_leap y) m + (d + k) - 1)
    with (Day (t + off) + k) by lia.
  lia.
Qed.

Lemma setDate_midnight : forall n k, in_range (n + k) ->
  setDate off (Some (n * msPerDay - off)) (num_add (getDate off (Some (n * msPerDay - off))) k)
  = Some ((n + k) * msPerDay - off).
Proof.
  intros n k H. rewrite setDate_add.
  replace (n * msPerDay - off + k * msPerDay) with ((n + k) * msPerDay - off) by ring.
  apply TimeClip_midnight; exact H.
Qed.

(** [new Date(y, m - 1, d)] for a year from 100 on is local midnight of [y-m-d]. *)
Lemma newDate_civil : forall y m d, 100 <= y -> 1 <= m <= 12 ->
  in_range (days_from_civil y m d) ->
  newDate off (Some y) (Some (m - 1)) (Some d) = local_midnight off y m d.
Proof.
  intros y m d Hy Hm Hr. unfold newDate, local_midnight.
  replace ((0 <=? y) && (y <=? 99)) with false
    by (symmetry; apply andb_false_iff; right; apply Z.leb_gt; lia).
  unfold MakeDate, MakeDay.
  rewrite (Z.div_small (m - 1) 12) by lia. rewrite (Z.mod_small (m - 1) 12) by lia.
  replace (y + 0) with y by ring. replace (m - 1 + 1) with m by ring.
  rewrite <- TimeClip_midnight by exact Hr. f_equal. unfold days_from_civil. ring.
Qed.

Section Scans.
Variable dow : Z.

Lemma scan_forward_steps : forall (j : nat) fuel n,
  (j < fuel)%nat ->
  (forall i, 0 <= i < Z.of_nat j -> week_day (n + i) <> dow) ->
  week_day (n + Z.of_nat j) = dow ->
  (forall i, 0 <= i <= Z.of_nat j -> in_range (n + i)) ->
  scan_forward off dow fuel (Some (n * msPerDay - off))
  = Ret (Some ((n + Z.of_nat j) * msPerDay - off)).
Proof.
  induction j as [|j IH]; intros fuel n Hf Hne Heq Hr;
    (destruct fuel as [|fuel]; [lia|]); cbn [scan_forward]; rewrite getDay_midnight.
  - simpl Z.of_nat in *. rewrite Z.add_0_r in *. unfold differs.
    rewrite Heq, Z.eqb_refl. reflexivity.
  - unfold differs.
    replace (week_day n =? dow) with false
      by (symmetry; apply Z.eqb_neq; rewrite <- (Z.add_0_r n); apply Hne; lia).
    simpl negb. cbv iota.
    rewrite setDate_midnight by (apply (Hr 1); lia).
    replace (n + Z.of_nat (S j)) with ((n + 1) + Z.of_nat j) by lia.
    apply IH; [lia| | |].
    + intros i Hi. replace (n + 1 + i) with (n + (i + 1)) by ring. apply Hne. lia.
    + replace (n + 1 + Z.of_nat j) with (n + Z.of_nat (S j)) by lia. exact Heq.
    + intros i Hi. replace (n + 1 + i) with (n + (i + 1)) by ring. apply Hr. lia.
Qed.

Lemma scan_backward_steps : forall (j : nat) fuel n,
  (j < fuel)%nat ->
  (forall i, 0 <= i < Z.of_nat j -> week_day (n - i) <> dow) ->
  week_day (n - Z.of_nat j) = dow ->
  (forall i, 0 <= i <= Z.of_nat j -> in_range (n - i)) ->
  scan_backward off dow fuel (Some (n * msPerDay - off))
  = Ret (Some ((n - Z.of_nat j) * msPerDay - off)).
Proof.
  induction j as [|j IH]; intros fuel n Hf Hne Heq Hr;
    (destruct fuel as [|fuel]; [lia|]); cbn [scan_backward]; rewrite getDay_midnight.
  - simpl Z.of_nat in *. rewrite Z.sub_0_r in *. unfold differs.
    rewrite Heq, Z.eqb_refl. reflexivity.
  - unfold differs.
    replace (week_day n =? dow) with false
      by (symmetry; apply Z.eqb_neq; rewrite <- (Z.sub_0_r n); apply Hne; lia).
    simpl negb. cbv iota.
    rewrite setDate_midnight by (replace (n + -1) with (n - 1) by ring; apply (Hr 1); lia).
    replace (n - Z.of_nat (S j)) with ((n + -1) - Z.of_nat j) by lia.
    apply IH; [lia| | |].
    + intros i Hi. replace (n + -1 - i) with (n - (i + 1)) by ring. apply Hne. lia.
    + replace (n + -1 - Z.of_nat j) with (n - Z.of_nat (S j)) by lia. exact Heq.
    + intros i Hi. replace (n + -1 - i) with (n - (i + 1)) by ring. apply Hr. lia.
Qed.
End Scans.
End DateLemmas.

Lemma first_weekday_offset : forall n dow, 0 <= dow <= 6 ->
  let j := (dow - week_day n) mod 7 in
  0 <= j <= 6 /\ week_day (n + j) = dow /\
  (forall i, 0 <= i < j -> week_day (n + i) <> dow).
Proof.
  intros n dow Hd j. subst j. unfold week_day.
  split; [|split]; [Z.div_mod_to_equations; lia|Z.div_mod_to_equations; lia|].
  intros i Hi. Z.div_mod_to_equations. lia.
Qed.

Lemma last_weekday_offset : forall n dow, 0 <= dow <= 6 ->
  let j := (week_day n - dow) mod 7 in
  0 <= j <= 6 /\ week_day (n - j) = dow /\
  (forall i, 0 <= i < j -> week_day (n - i) <> dow).
Proof.
  intros n dow Hd j. subst j. unfold week_day.
  split; [|split]; [Z.div_mod_to_equations; lia|Z.div_mod_to_equations; lia|].
  intros i Hi. Z.div_mod_to_equations. lia.
Qed.

(** ** Dates around a month *)

Lemma in_range_month : forall y m i, 100 <= y <= 200000 -> -40 <= i <= 60 ->
  in_range (days_from_civil y m 1 + i).
Proof.
  intros y m i Hy Hi. pose proof (days_from_civil_range y m 1 Hy ltac:(lia)).
  unfold in_range. lia.
Qed.

Lemma civil_of_local_midnight : forall off y m d, valid_civil y m d ->
  civil_of off (local_midnight off y m d) = Some (y, m, d).
Proof.
  intros off y m d H. unfold civil_of, local_midnight, option_map.
  rewrite local_civil_midnight, days_from_civil_ok by exact H. reflexivity.
Qed.

(** A day [e] (1..28) past the end of month [m] lies in another month. *)
Lemma civil_past_month_end : forall y m e, 1 <= m <= 12 -> 1 <= e <= 28 ->
  exists y' m', civil_from_days (days_from_civil y m 1 + days_in_month y m + e - 1)
                = (y', m', e) /\ m' <> m.
Proof.
  intros y m e Hm He.
  replace (days_from_civil y m 1 + days_in_month y m + e - 1)
    with ((days_from_civil y m 1 + days_in_month y m) + e - 1) by ring.
  rewrite next_month_start by exact Hm.
  destruct (Z.eqb_spec m 12) as [E|E].
  - exists (y + 1), 1. split; [|lia]. rewrite <- days_from_civil_day.
    apply days_from_civil_ok. pose proof (days_in_month_bounds (y + 1) 1).
    split; lia.
  - exists y, (m + 1). split; [|lia]. rewrite <- days_from_civil_day.
    apply days_from_civil_ok. pose proof (days_in_month_bounds y (m + 1)).
    split; lia.
Qed.

(** [new Date(year, month, 0)] is the last day of month [month] (1-based). *)
Lemma MakeDay_last_day : forall y m, 1 <= m <= 12 ->
  MakeDay y m 0 = days_from_civil y m 1 + days_in_month y m - 1.
Proof.
  intros y m Hm. pose proof (next_month_start y m Hm) as N. unfold MakeDay.
  destruct (Z.eqb_spec m 12) as [E|E].
  - subst m. change (12 / 12) with 1. change (12 mod 12 + 1) with 1.
    change (12 =? 12) with true in N. cbv iota in N.
    unfold days_from_civil in N |- *. lia.
  - rewrite (Z.div_small m 12) by lia. rewrite (Z.mod_small m 12) by lia.
    replace (y + 0) with y by ring. unfold days_from_civil in N |- *. lia.
Qed.

Lemma newDate_last_day : forall off y m, Z.abs off < msPerDay -> 100 <= y <= 200000 ->
  1 <= m <= 12 ->
  newDate off (Some y) (Some m) (Some 0)
  = Some ((days_from_civil y m 1 + days_in_month y m - 1) * msPerDay - off).
Proof.
  intros off y m Ho Hy Hm. unfold newDate.
  replace ((0 <=? y) && (y <=? 99)) with false
    by (symmetry; apply andb_false_iff; right; apply Z.leb_gt; lia).
  unfold MakeDate. rewrite MakeDay_last_day by exact Hm.
  rewrite Z.add_0_r. apply TimeClip_midnight; [exact Ho|].
  pose proof (days_in_month_bounds y m). replace (days_from_civil y m 1 + days_in_month y m - 1)
    with (days_from_civil y m 1 + (days_in_month y m - 1)) by ring.
  apply in_range_month; lia.
Qed.

(** The forward scan of calculateNthDate stops at the first matching weekday. *)
Lemma nth_first_scan : forall fuel off dow m y, (7 <= fuel)%nat -> Z.abs off < msPerDay ->
  100 <= y <= 200000 -> 1 <= m <= 12 -> 0 <= dow <= 6 ->
  let n1 := days_from_civil y m 1 in
  let j := (dow - week_day n1) mod 7 in
  is_first_weekday y m dow (1 + j) /\
  scan_forward off dow fuel (newDate off (Some y) (Some (m - 1)) (Some 1))
  = Ret (Some ((n1 + j) * msPerDay - off)).
Proof.
  intros fuel off dow m y Hf Ho Hy Hm Hdow n1 j.
  destruct (first_weekday_offset n1 dow Hdow) as (Hj & Hwj & Hnj). fold j in Hj, Hwj, Hnj.
  pose proof (days_in_month_bounds y m). split.
  - unfold is_first_weekday, weekday_of. split; [lia|split].
    + rewrite days_from_civil_day. fold n1.
      replace (n1 + (1 + j) - 1) with (n1 + j) by ring. exact Hwj.
    + intros d Hd. rewrite days_from_civil_day. fold n1.
      replace (n1 + d - 1) with (n1 + (d - 1)) by ring. apply Hnj. lia.
  - assert (R1 : in_range (days_from_civil y m 1)).
    { pose proof (days_from_civil_range y m 1 Hy ltac:(lia)). unfold in_range. lia. }
    rewrite newDate_civil by (exact Ho || lia || exact R1).
    unfold local_midnight. rewrite days_from_civil_day. fold n1.
    replace (n1 + 1 - 1) with n1 by ring.
    pose proof (scan_forward_steps off Ho dow (Z.to_nat j) fuel n1) as SF.
    rewrite Z2Nat.id in SF by lia. apply SF.
    + lia.
    + exact Hnj.
    + exact Hwj.
    + intros i Hi. apply in_range_month; lia.
Qed.

(** ** Decimal strings *)

Ltac digit_cases x :=
  let H := fresh in
  assert (H : x = 0 \/ x = 1 \/ x = 2 \/ x = 3 \/ x = 4 \/ x = 5 \/ x = 6 \/ x = 7
              \/ x = 8 \/ x = 9) by lia;
  repeat (destruct H as [H | H]; [subst x | ]); [ .. | subst x].

Lemma digit_char_val : forall x, 0 <= x < 10 -> digit_val (digit_char x) = Some x.
Proof. intros x Hx; digit_cases x; reflexivity. Qed.

Lemma digit_mod10 : forall v k, 0 <= (v / 10 ^ k) mod 10 < 10.
Proof. intros. apply Z.mod_pos_bound. lia. Qed.

Lemma take_digits_pad : forall w v s,
  take_digits 10 (pad_digits w v ++ s) = (digits_of w v ++ take_digits 10 s)%list.
Proof.
  induction w as [| w IH]; intros v s; [reflexivity |].
  cbn [pad_digits digits_of append take_digits].
  rewrite digit_char_val by apply digit_mod10.
  rewrite (proj2 (Z.ltb_lt _ _)) by apply digit_mod10.
  rewrite IH. reflexivity.
Qed.

Lemma digits_of_length : forall w v, List.length (digits_of w v) = w.
Proof. induction w; intros; cbn [digits_of List.length]; auto. Qed.

Lemma fold_value_acc : forall l acc,
  fold_left (fun acc v => acc * 10 + v) l acc
  = acc * 10 ^ Z.of_nat (List.length l) + fold_left (fun acc v => acc * 10 + v) l 0.
Proof.
  induction l as [| x l IH]; intros acc; cbn [fold_left List.length].
  - change (10 ^ Z.of_nat 0) with 1. ring.
  - rewrite IH, (IH (0 * 10 + x)). rewrite Nat2Z.inj_succ, Z.pow_succ_r by lia. ring.
Qed.

Lemma mod_mul_floor : forall a b c, 0 < b -> 0 < c ->
  a mod (b * c) = a mod b + b * ((a / b) mod c).
Proof.
  intros a b c Hb Hc.
  rewrite (Z.mod_eq a (b * c)) by lia. rewrite <- Z.div_div by lia.
  rewrite (Z.mod_eq (a / b) c) by lia. rewrite (Z.mod_eq a b) by lia. ring.
Qed.

Lemma digits_value_pad : forall w v, 0 <= v ->
  digits_value 10 (digits_of w v) = v mod 10 ^ Z.of_nat w.
Proof.
  induction w as [| w IH]; intros v Hv.
  - cbn. rewrite Z.mod_1_r. reflexivity.
  - unfold digits_value in *. cbn [digits_of fold_left].
    rewrite fold_value_acc, digits_of_length, IH by exact Hv.
    rewrite Nat2Z.inj_succ, Z.pow_succ_r by lia.
    rewrite (Z.mul_comm 10 (10 ^ _)), mod_mul_floor by (try apply Z.pow_pos_nonneg; lia).
    ring.
Qed.

Lemma parseInt_two : forall x1 x2 r, 0 <= x1 < 10 -> 0 <= x2 < 10 ->
  parseInt (String (digit_char x1) (String (digit_char x2) r))
  = match take_digits 10 (String (digit_char x1) (String (digit_char x2) r)) with
    | [] => None
    | l => Some (1 * digits_value 10 l)
    end.
Proof. intros x1 x2 r H1 H2. digit_cases x1; digit_cases x2; reflexivity. Qed.

Lemma parseInt_pad : forall w v s, (2 <= w)%nat -> 0 <= v < 10 ^ Z.of_nat w ->
  take_digits 10 s = [] -> parseInt (pad_digits w v ++ s) = Some v.
Proof.
  intros w v s Hw Hv Hs.
  destruct w as [| [| w]]; [lia | lia |].
  cbn [pad_digits append].
  rewrite parseInt_two by apply digit_mod10.
  change (String (digit_char ((v / 10 ^ Z.of_nat (S w)) mod 10))
            (String (digit_char ((v / 10 ^ Z.of_nat w) mod 10)) (pad_digits w v ++ s)))
    with ((pad_digits (S (S w)) v ++ s)%string).
  rewrite take_digits_pad, Hs, app_nil_r.
  cbn [digits_of].
  change ((v / 10 ^ Z.of_nat (S w)) mod 10 :: (v / 10 ^ Z.of_nat w) mod 10 :: digits_of w v)
    with (digits_of (S (S w)) v).
  rewrite digits_value_pad, Z.mod_small, Z.mul_1_l by lia. reflexivity.
Qed.

Lemma digit_char_sep : forall x, 0 <= x < 10 ->
  Ascii.eqb (digit_char x) "T" = false /\ Ascii.eqb (digit_char x) "-" = false.
Proof. intros x Hx; digit_cases x; split; reflexivity. Qed.

Lemma has_char_pad : forall w v,
  has_char "T" (pad_digits w v) = false /\ has_char "-" (pad_digits w v) = false.
Proof.
  induction w as [| w IH]; intros v; [split; reflexivity |].
  cbn [pad_digits has_char].
  destruct (digit_char_sep ((v / 10 ^ Z.of_nat w) mod 10)) as [E1 E2];
    [apply digit_mod10 |].
  rewrite E1, E2. apply IH.
Qed.

Lemma has_char_app : forall c a b,
  has_char c (a ++ b) = has_char c a || has_char c b.
Proof.
  induction a as [| c' a IH]; intros b; [reflexivity |].
  cbn [append has_char]. rewrite IH. apply orb_assoc.
Qed.

Lemma string_app_nil : forall s, (s ++ "")%string = s.
Proof. induction s as [| c s IH]; [reflexivity | cbn; rewrite IH; reflexivity]. Qed.

Lemma split_on_app : forall sep a, has_char sep a = false ->
  forall s p ps, split_on sep s = p :: ps -> split_on sep (a ++ s) = (a ++ p)%string :: ps.
Proof.
  induction a as [| c a IH]; intros Ha s p ps Hs; [exact Hs |].
  cbn [has_char] in Ha. apply orb_false_iff in Ha as [Hc Ha].
  cbn [append split_on]. rewrite Hc, (IH Ha s p ps Hs). reflexivity.
Qed.

Lemma split_ymd : forall y m d rest,
  (rest = EmptyString \/ exists r, rest = String "T" r) ->
  split_on "-" (hd EmptyString (split_on "T" (ymd_string y m d ++ rest)))
  = [pad_digits 4 y; pad_digits 2 m; pad_digits 2 d].
Proof.
  intros y m d rest Hr.
  destruct (has_char_pad 4 y) as [T4 D4]. destruct (has_char_pad 2 m) as [T2 D2].
  destruct (has_char_pad 2 d) as [T2' D2'].
  assert (HT : has_char "T" (ymd_string y m d) = false).
  { unfold ymd_string. rewrite has_char_app. cbn [has_char].
    rewrite has_char_app. cbn [has_char]. rewrite T4, T2, T2'. reflexivity. }
  assert (HS : split_on "T" rest = EmptyString :: match rest with
                                                  | String _ r => split_on "T" r
                                                  | EmptyString => []
                                                  end).
  { destruct Hr as [-> | [r ->]]; reflexivity. }
  rewrite (split_on_app _ _ HT _ _ _ HS). cbn [hd]. rewrite string_app_nil.
  unfold ymd_string.
  rewrite (split_on_app "-" (pad_digits 4 y) D4 _ EmptyString
             [pad_digits 2 m; pad_digits 2 d]).
  - rewrite string_app_nil. reflexivity.
  - cbn [split_on]. change (Ascii.eqb "-" "-") with true. cbv iota.
    rewrite (split_on_app "-" (pad_digits 2 m) D2 _ EmptyString [pad_digits 2 d]).
    + rewrite string_app_nil. reflexivity.
    + cbn [split_on]. change (Ascii.eqb "-" "-") with true. cbv iota.
      pose proof (split_on_app "-" (pad_digits 2 d) D2' EmptyString EmptyString []
                    eq_refl) as E.
      rewrite !string_app_nil in E. rewrite E. reflexivity.
Qed.

Lemma parseInt_pad_nil : forall w v, (2 <= w)%nat -> 0 <= v < 10 ^ Z.of_nat w ->
  parseInt (pad_digits w v) = Some v.
Proof.
  intros w v Hw Hv. rewrite <- (string_app_nil (pad_digits w v)).
  apply parseInt_pad; auto.
Qed.

Lemma parseSimpleDate_ymd : forall off y m d rest,
  (rest = EmptyString \/ exists r, rest = String "T" r) ->
  0 <= y <= 9999 -> 0 <= m <= 99 -> 0 <= d <= 99 ->
  parseSimpleDate off (DStr (ymd_string y m d ++ rest))
  = newDate off (Some y) (Some (m - 1)) (Some d).
Proof.
  intros off y m d rest Hr Hy Hm Hd. unfold parseSimpleDate.
  rewrite split_ymd by exact Hr. cbn [nth_error].
  rewrite !parseInt_pad_nil by (cbn; lia). reflexivity.
Qed.

Lemma newDate_small : forall off y m d, Z.abs off < msPerDay ->
  0 <= y <= 9999 -> 0 <= m <= 99 -> 0 <= d <= 99 ->
  newDate off (Some y) (Some (m - 1)) (Some d)
  = Some (MakeDay (if (0 <=? y) && (y <=? 99) then 1900 + y else y) (m - 1) d * msPerDay - off).
Proof.
  intros off y m d Ho Hy Hm Hd. unfold newDate, MakeDate. rewrite Z.add_0_r.
  apply TimeClip_midnight; [exact Ho |].
  assert (Hyr : 100 <= (if (0 <=? y) && (y <=? 99) then 1900 + y else y) <= 9999).
  { destruct ((0 <=? y) && (y <=? 99)) eqn:E.
    - apply andb_true_iff in E as [E1 E2]. apply Z.leb_le in E1, E2. lia.
    - apply andb_false_iff in E as [E | E]; apply Z.leb_gt in E; lia. }
  revert Hyr. generalize (if (0 <=? y) && (y <=? 99) then 1900 + y else y). intros yr Hyr.
  unfold MakeDay, in_range.
  assert (Hq : -1 <= (m - 1) / 12 <= 8) by (Z.div_mod_to_equations; lia).
  pose proof (DayFromYear_range (yr + (m - 1) / 12) ltac:(lia)).
  pose proof (month_start_bounds (is_leap (yr + (m - 1) / 12)) ((m - 1) mod 12 + 1)).
  lia.
Qed.

(** ** Lookups and recursion *)

Lemma dateType_relative : forall e, dateType e = "relative"%string ->
  String.eqb (dateType e) "fixed" = false /\ String.eqb (dateType e) "nth" = false
  /\ String.eqb (dateType e) "relative" = true.
Proof. intros e H. rewrite H. repeat split; reflexivity. Qed.

Lemma calculateEventDate_ref : forall fuel off nowYear x y allEvents,
  reference_of allEvents x = Some y ->
  exists period unit dir,
    relativePeriod x = Some period /\ relativeUnit x = Some unit /\
    relativeDirection x = Some dir /\
    calculateEventDate (S fuel) off nowYear x allEvents
    = match calculateEventDate fuel off nowYear y allEvents with
      | Ret None => Ret None
      | Ret (Some rd) =>
          match calculateRelativeDate off rd period unit dir with
          | Ret t => Ret (Some t)
          | Throw _ => Ret None
          | Diverge => Diverge
          end
      | Throw e => Throw e
      | Diverge => Diverge
      end.
Proof.
  intros fuel off nowYear x y allEvents H. unfold reference_of in H.
  destruct (String.eqb_spec (dateType x) "relative") as [Hd | Hd]; [| discriminate].
  destruct (dateType_relative x Hd) as (H1 & H2 & _).
  destruct (relativeEventName x) as [name |] eqn:E1; [| discriminate].
  destruct (relativePeriod x) as [period |] eqn:E2; [| discriminate].
  destruct (relativeUnit x) as [unit |] eqn:E3; [| discriminate].
  destruct (relativeDirection x) as [dir |] eqn:E4; [| discriminate].
  exists period, unit, dir. split; [reflexivity | split; [reflexivity | split; [reflexivity |]]].
  cbn [calculateEventDate]. rewrite H1, H2, Hd.
  cbn [String.eqb Ascii.eqb Bool.eqb]. rewrite E1, E2, E3, E4.
  destruct (truthy_str (Some name) && truthy_num (Some period) && truthy_str (Some unit)
            && truthy_str (Some dir)) eqn:T; [| discriminate].
  apply andb_true_iff in T as [T T4]. apply andb_true_iff in T as [T T3].
  apply andb_true_iff in T as [T1 T2].
  rewrite T1, T2, T3, T4. cbn [negb orb]. rewrite H. reflexivity.
Qed.

Lemma calculateRelativeDate_invalid : forall off t period unit dir,
  ~ In unit ["days"; "weeks"; "months"; "years"]%string ->
  calculateRelativeDate off t period unit dir = Throw (InvalidUnit unit).
Proof.
  intros off t period unit dir H. unfold calculateRelativeDate.
  destruct (String.eqb_spec unit "days"); [subst; cbn in H; tauto |].
  destruct (String.eqb_spec unit "weeks"); [subst; cbn in H; tauto |].
  destruct (String.eqb_spec unit "months"); [subst; cbn in H; tauto |].
  destruct (String.eqb_spec unit "years"); [subst; cbn in H; tauto |].
  reflexivity.
Qed.

Lemma find_first : forall (A : Type) (p : A -> bool) pre x post,
  Forall (fun y => p y = false) pre -> p x = true -> find p (pre ++ x :: post) = Some x.
Proof.
  intros A p pre x post Hpre Hx. induction Hpre as [| y pre Hy _ IH]; cbn.
  - rewrite Hx. reflexivity.
  - rewrite Hy. exact IH.
Qed.

Lemma find_none : forall (A : Type) (p : A -> bool) l,
  Forall (fun y => p y = false) l -> find p l = None.
Proof.
  intros A p l H. induction H as [| y l Hy _ IH]; cbn; [reflexivity |]. rewrite Hy. exact IH.
Qed.

Lemma title_is_false : forall name l,
  Forall (fun q => title q <> name) l -> Forall (fun q => title_is name q = false) l.
Proof.
  intros name l H. eapply Forall_impl; [| exact H]. intros q Hq. unfold title_is.
  destruct (String.eqb_spec (title q) name); [contradiction | reflexivity].
Qed.

Lemma scan_forward_mono : forall off dow f f' d,
  (f <= f')%nat -> scan_forward off dow f d <> Diverge ->
  scan_forward off dow f' d = scan_forward off dow f d.
Proof.
  induction f as [| f IH]; intros f' d Hf H; [contradiction H; reflexivity |].
  destruct f' as [| f']; [lia |]. cbn [scan_forward] in *.
  destruct (differs _ _); [apply IH; [lia | exact H] | reflexivity].
Qed.

Lemma scan_backward_mono : forall off dow f f' d,
  (f <= f')%nat -> scan_backward off dow f d <> Diverge ->
  scan_backward off dow f' d = scan_backward off dow f d.
Proof.
  induction f as [| f IH]; intros f' d Hf H; [contradiction H; reflexivity |].
  destruct f' as [| f']; [lia |]. cbn [scan_backward] in *.
  destruct (differs _ _); [apply IH; [lia | exact H] | reflexivity].
Qed.

Lemma calculateNthDate_mono : forall f f' off n dow m y,
  (f <= f')%nat -> calculateNthDate f off n dow m y <> Diverge ->
  calculateNthDate f' off n dow m y = calculateNthDate f off n dow m y.
Proof.
  intros f f' off n dow m y Hf H. unfold calculateNthDate in *.
  destruct (scan_forward off dow f _) as [d | x |] eqn:E; [| | contradiction H; reflexivity].
  - rewrite (scan_forward_mono off dow f f') by (try rewrite E; congruence).
    rewrite E. destruct (n =? -1); [| reflexivity].
    apply scan_backward_mono; assumption.
  - rewrite (scan_forward_mono off dow f f') by (try rewrite E; congruence).
    rewrite E. reflexivity.
Qed.

(** * The claims *)

(** ** calculateNthDate *)

(** C5: for a year from 100 to 200000, a month 1..12, a weekday 0..6 and an
    occurrence [nth] from 1 to 4 (and also 5), calculateNthDate finds the
    first day [f] of the month falling on [dayOfWeek] (the forward scan from
    the 1st), moves it by [(nth - 1) * 7] days, returns that day when it is
    still in the month and otherwise throws the "no such occurrence" error,
    never clamping to an earlier occurrence.  For March 2024 and Tuesday,
    occurrence 1 is 2024-03-05. *)
Theorem calculateNthDate_occurrence :
  (forall fuel off nth dow m y,
    (7 <= fuel)%nat -> Z.abs off < msPerDay -> 100 <= y <= 200000 -> 1 <= m <= 12 ->
    0 <= dow <= 6 -> 1 <= nth <= 5 ->
    exists f, is_first_weekday y m dow f /\
      calculateNthDate fuel off nth dow m y =
        (if f + (nth - 1) * 7 <=? days_in_month y m
         then Ret (local_midnight off y m (f + (nth - 1) * 7))
         else Throw (NoOccurrence nth))) /\
  calculateNthDate 7 0 1 2 3 2024 = Ret (local_midnight 0 2024 3 5).
Proof.
  split; [|vm_compute; reflexivity].
  intros fuel off nth dow m y Hf Ho Hy Hm Hdow Hn.
  pose proof (nth_first_scan fuel off dow m y Hf Ho Hy Hm Hdow) as NS.
  cbv zeta in NS. destruct NS as [Hfirst Hscan].
  pose proof (days_from_civil_range y m 1 Hy ltac:(lia)) as RB.
  pose proof (days_in_month_bounds y m) as DB.
  pose proof (Z.mod_pos_bound (dow - week_day (days_from_civil y m 1)) 7 ltac:(lia)) as JB.
  set (n1 := days_from_civil y m 1) in *.
  set (j := (dow - week_day n1) mod 7) in *.
  exists (1 + j). split; [exact Hfirst|].
  unfold calculateNthDate. rewrite Hscan. cbv iota zeta.
  replace (nth =? -1) with false by (symmetry; apply Z.eqb_neq; lia).
  rewrite setDate_midnight by (exact Ho || (unfold in_range; lia)).
  destruct (1 + j + (nth - 1) * 7 <=? days_in_month y m) eqn:C.
  - apply Z.leb_le in C.
    assert (E : n1 + j + (nth - 1) * 7 = days_from_civil y m (1 + j + (nth - 1) * 7)).
    { rewrite (days_from_civil_day y m (1 + j + (nth - 1) * 7)). unfold n1. ring. }
    rewrite (getMonth_midnight off _ y m (1 + j + (nth - 1) * 7))
      by (rewrite E; apply days_from_civil_ok; split; lia).
    unfold differs. rewrite Z.eqb_refl. cbv iota. unfold local_midnight. rewrite <- E.
    reflexivity.
  - apply Z.leb_gt in C.
    destruct (civil_past_month_end y m (1 + j + (nth - 1) * 7 - days_in_month y m) Hm
                ltac:(lia)) as (y' & m' & Hc & Hne).
    assert (E : n1 + j + (nth - 1) * 7 =
                days_from_civil y m 1 + days_in_month y m
                + (1 + j + (nth - 1) * 7 - days_in_month y m) - 1) by (unfold n1; ring).
    rewrite (getMonth_midnight off _ y' m' _) by (rewrite E; exact Hc).
    unfold differs. replace (m' - 1 =? m - 1) with false by (symmetry; apply Z.eqb_neq; lia).
    reflexivity.
Qed.

(** C6: for a year from 100 to 200000, a month 1..12 and a weekday 0..6,
    calculateNthDate with [nthOccurrence = -1] returns local midnight of a
    day [l] of the target month, and [l] is the last day of the month on
    that weekday; the result depends on [l] only, not on the forward scan.
    The last Friday of March 2024 is 2024-03-29. *)
Theorem calculateNthDate_last_occurrence :
  (forall fuel off dow m y,
    (7 <= fuel)%nat -> Z.abs off < msPerDay -> 100 <= y <= 200000 -> 1 <= m <= 12 ->
    0 <= dow <= 6 ->
    exists l, is_last_weekday y m dow l /\
      civil_of off (local_midnight off y m l) = Some (y, m, l) /\
      calculateNthDate fuel off (-1) dow m y = Ret (local_midnight off y m l)) /\
  calculateNthDate 7 0 (-1) 5 3 2024 = Ret (local_midnight 0 2024 3 29).
Proof.
  split; [|vm_compute; reflexivity].
  intros fuel off dow m y Hf Ho Hy Hm Hdow.
  pose proof (nth_first_scan fuel off dow m y Hf Ho Hy Hm Hdow) as NS.
  cbv zeta in NS. destruct NS as [_ Hscan].
  pose proof (days_from_civil_range y m 1 Hy ltac:(lia)) as RB.
  pose proof (days_in_month_bounds y m) as DB.
  set (nL := days_from_civil y m 1 + days_in_month y m - 1).
  destruct (last_weekday_offset nL dow Hdow) as (Hj & Hwj & Hnj).
  set (j := (week_day nL - dow) mod 7) in *.
  assert (EL : days_from_civil y m (days_in_month y m - j) = nL - j)
    by (rewrite days_from_civil_day; unfold nL; ring).
  exists (days_in_month y m - j). split; [|split].
  - unfold is_last_weekday, weekday_of. split; [lia|split].
    + rewrite EL. exact Hwj.
    + intros d Hd. rewrite days_from_civil_day.
      replace (days_from_civil y m 1 + d - 1) with (nL - (days_in_month y m - d))
        by (unfold nL; ring).
      apply Hnj. lia.
  - apply civil_of_local_midnight. split; lia.
  - unfold calculateNthDate. rewrite Hscan. cbv iota zeta.
    replace (-1 =? -1) with true by reflexivity.
    rewrite newDate_last_day by (exact Ho || lia). fold nL.
    pose proof (scan_backward_steps off Ho dow (Z.to_nat j) fuel nL) as SB.
    rewrite Z2Nat.id in SB by lia.
    unfold local_midnight. rewrite EL. apply SB.
    + lia.
    + exact Hnj.
    + exact Hwj.
    + intros i Hi. unfold in_range, nL. lia.
Qed.

(** ** calculateRelativeDate *)




(** ** calculateNthDate and calculateRelativeDate at sample inputs *)

Lemma calculateNthDate_occurrence_witness :
  exists f, is_first_weekday 2024 11 4 f /\
    calculateNthDate 7 (-18000000) 4 4 11 2024 =
      (if f + (4 - 1) * 7 <=? days_in_month 2024 11
       then Ret (local_midnight (-18000000) 2024 11 (f + (4 - 1) * 7))
       else Throw (NoOccurrence 4)).
Proof.
  apply (proj1 calculateNthDate_occurrence 7%nat (-18000000) 4 4 11 2024);
    (lia || (unfold msPerDay; lia)).
Defined.

Lemma calculateNthDate_last_occurrence_witness :
  exists l, is_last_weekday 2024 3 5 l /\
    civil_of 3600000 (local_midnight 3600000 2024 3 l) = Some (2024, 3, l) /\
    calculateNthDate 7 3600000 (-1) 5 3 2024 = Ret (local_midnight 3600000 2024 3 l).
Proof.
  apply (proj1 calculateNthDate_last_occurrence 7%nat 3600000 5 3 2024);
    (lia || (unfold msPerDay; lia)).
Defined.


(** ** calculateEventDate *)

(** C4: for a fixed event whose startDate is a string ['YYYY-MM-DD'],
    alone or followed by a ['T...'] time part, resolution splits the string
    and builds the date from its numbers with the local-time constructor:
    the civil date of the result is the same under any two time-zone
    offsets, and for a valid date with a year of at least 100 it is the
    literal year, month and day (years 0..99 are read as 1900..1999 by the
    [Date] constructor).  A fixed event whose startDate is absent (or empty)
    resolves to null. *)
Theorem fixed_startDate_civil :
  (forall fuel off nowYear e allEvents, (1 <= fuel)%nat ->
     dateType e = "fixed"%string -> truthy_date (startDate e) = false ->
     calculateEventDate fuel off nowYear e allEvents = Ret None) /\
  (forall fuel off1 off2 nowYear e allEvents y m d rest, (1 <= fuel)%nat ->
     Z.abs off1 < msPerDay -> Z.abs off2 < msPerDay ->
     dateType e = "fixed"%string -> startDate e = Some (DStr (ymd_string y m d ++ rest)) ->
     (rest = EmptyString \/ exists r, rest = String "T" r) ->
     0 <= y <= 9999 -> 0 <= m <= 99 -> 0 <= d <= 99 ->
     exists t1 t2,
       calculateEventDate fuel off1 nowYear e allEvents = Ret (Some (Some t1)) /\
       calculateEventDate fuel off2 nowYear e allEvents = Ret (Some (Some t2)) /\
       civil_of off1 (Some t1) = civil_of off2 (Some t2) /\
       (100 <= y -> valid_civil y m d -> civil_of off1 (Some t1) = Some (y, m, d))).
Proof.
  split.
  - intros fuel off nowYear e allEvents Hf Hd Hs.
    destruct fuel as [| fuel]; [lia |]. cbn [calculateEventDate]. rewrite Hd.
    cbn [String.eqb Ascii.eqb Bool.eqb].
    destruct (startDate e) as [v |]; [rewrite Hs | ]; reflexivity.
  - intros fuel off1 off2 nowYear e allEvents y m d rest Hf Ho1 Ho2 Hd Hs Hr Hy Hm Hdd.
    destruct fuel as [| fuel]; [lia |]. cbn [calculateEventDate]. rewrite Hd, Hs.
    cbn [String.eqb Ascii.eqb Bool.eqb].
    assert (Ht : truthy_date (Some (DStr (ymd_string y m d ++ rest))) = true).
    { unfold ymd_string. destruct (has_char_pad 4 y) as [_ _].
      cbn [truthy_date]. destruct (pad_digits 4 y) eqn:P; [discriminate |]. reflexivity. }
    rewrite Ht, !parseSimpleDate_ymd, !newDate_small by assumption.
    set (N := MakeDay _ (m - 1) d).
    exists (N * msPerDay - off1), (N * msPerDay - off2).
    split; [reflexivity | split; [reflexivity |]].
    unfold civil_of, option_map. rewrite !local_civil_midnight by assumption.
    split; [reflexivity |].
    intros Hy100 Hv. f_equal.
    subst N.
    replace ((0 <=? y) && (y <=? 99)) with false
      by (symmetry; apply andb_false_iff; right; apply Z.leb_gt; lia).
    unfold MakeDay.
    destruct Hv as [Hmm Hdd'].
    rewrite (Z.div_small (m - 1) 12) by lia. rewrite (Z.mod_small (m - 1) 12) by lia.
    replace (y + 0) with y by ring. replace (m - 1 + 1) with m by ring.
    apply days_from_civil_ok. split; assumption.
Qed.

Lemma fixed_startDate_civil_witness :
  calculateEventDate 1 0 2024 no_start [no_start] = Ret None /\
  exists t1 t2,
    calculateEventDate 1 0 2024 christmas [christmas] = Ret (Some (Some t1)) /\
    calculateEventDate 1 (-18000000) 2024 christmas [christmas] = Ret (Some (Some t2)) /\
    civil_of 0 (Some t1) = civil_of (-18000000) (Some t2) /\
    (100 <= 2024 -> valid_civil 2024 12 25 -> civil_of 0 (Some t1) = Some (2024, 12, 25)).
Proof.
  split.
  - apply (proj1 fixed_startDate_civil 1%nat 0 2024 no_start [no_start]);
      [lia | reflexivity | reflexivity].
  - apply (proj2 fixed_startDate_civil 1%nat 0 (-18000000) 2024 christmas [christmas]
             2024 12 25 EmptyString);
      first [lia | (unfold msPerDay; lia) | reflexivity | (left; reflexivity)].
Defined.

(** C8 (as the code has it): the reference of a relative event is the first
    event of the snapshot, in its stored order, whose title equals
    relativeEventName; resolution continues from that event.  When no title
    matches, the result is null: the same null as every other failure, with
    no distinct "reference not found" value. *)
Theorem relative_reference_lookup :
  forall fuel off nowYear e allEvents name period unit dir,
    dateType e = "relative"%string -> relativeEventName e = Some name ->
    relativePeriod e = Some period -> relativeUnit e = Some unit ->
    relativeDirection e = Some dir ->
    truthy_str (Some name) && truthy_num (Some period) && truthy_str (Some unit)
      && truthy_str (Some dir) = true ->
    (Forall (fun q => title q <> name) allEvents ->
       calculateEventDate (S fuel) off nowYear e allEvents = Ret None) /\
    (forall pre r post, allEvents = pre ++ r :: post -> title r = name ->
       Forall (fun q => title q <> name) pre ->
       calculateEventDate (S fuel) off nowYear e allEvents
       = match calculateEventDate fuel off nowYear r allEvents with
         | Ret None => Ret None
         | Ret (Some rd) =>
             match calculateRelativeDate off rd period unit dir with
             | Ret t => Ret (Some t)
             | Throw _ => Ret None
             | Diverge => Diverge
             end
         | Throw x => Throw x
         | Diverge => Diverge
         end).
Proof.
  intros fuel off nowYear e allEvents name period unit dir Hd H1 H2 H3 H4 Ht.
  destruct (dateType_relative e Hd) as (D1 & D2 & D3).
  assert (Hc : calculateEventDate (S fuel) off nowYear e allEvents
                = match find (title_is name) allEvents with
                  | None => Ret None
                  | Some r => match calculateEventDate fuel off nowYear r allEvents with
                    | Ret None => Ret None
                    | Ret (Some rd) =>
                        match calculateRelativeDate off rd period unit dir with
                        | Ret t => Ret (Some t)
                        | Throw _ => Ret None
                        | Diverge => Diverge
                        end
                    | Throw x => Throw x
                    | Diverge => Diverge
                    end
                  end).
  { cbn [calculateEventDate]. rewrite D1, D2, D3, H1, H2, H3, H4.
    apply andb_true_iff in Ht as [Ht T4]. apply andb_true_iff in Ht as [Ht T3].
    apply andb_true_iff in Ht as [T1 T2]. rewrite T1, T2, T3, T4. reflexivity. }
  split.
  - intros Hn. rewrite Hc, find_none by (apply title_is_false; exact Hn).
    reflexivity.
  - intros pre r post -> Hr Hpre. rewrite Hc, find_first.
    + reflexivity.
    + apply title_is_false. exact Hpre.
    + unfold title_is. rewrite Hr. apply String.eqb_refl.
Qed.

Lemma relative_reference_lookup_witness :
  calculateEventDate 10 0 2024 dangling failure_snapshot = Ret None /\
  calculateEventDate 10 0 2024 bad_unit failure_snapshot
  = match calculateEventDate 9 0 2024 christmas failure_snapshot with
    | Ret None => Ret None
    | Ret (Some rd) =>
        match calculateRelativeDate 0 rd 1 "fortnights" "after" with
        | Ret t => Ret (Some t)
        | Throw _ => Ret None
        | Diverge => Diverge
        end
    | Throw x => Throw x
    | Diverge => Diverge
    end.
Proof.
  split.
  - apply (proj1 (relative_reference_lookup 9 0 2024 dangling failure_snapshot "Easter" 3
                    "days" "before" eq_refl eq_refl eq_refl eq_refl eq_refl eq_refl)).
    repeat constructor; discriminate.
  - apply (proj2 (relative_reference_lookup 9 0 2024 bad_unit failure_snapshot "Christmas" 1
                    "fortnights" "after" eq_refl eq_refl eq_refl eq_refl eq_refl eq_refl)
             [] christmas [no_start; fifth_monday; bad_unit; dangling]);
      [reflexivity | reflexivity | constructor].
Defined.

Lemma reference_not_found_is_generic_null :
  calculateEventDate 10 0 2024 dangling failure_snapshot
  = calculateEventDate 10 0 2024 no_start failure_snapshot.
Proof. vm_compute. reflexivity. Qed.

(** C1 (as the code has it): calculateEventDate carries no visited set.  For
    any set of events in which every member is a relative event, with its
    four fields set, whose reference is again in the set (an event naming
    its own title, or two events naming each other), resolving a member
    recurses without end: it yields no result at any recursion depth, and
    in JavaScript the recursion runs until the call stack overflows. *)
Theorem reference_cycle_diverges : forall (C : Event -> Prop) allEvents off nowYear,
  (forall x, C x -> exists y, reference_of allEvents x = Some y /\ C y) ->
  forall fuel x, C x -> calculateEventDate fuel off nowYear x allEvents = Diverge.
Proof.
  intros C allEvents off nowYear Hclosed fuel.
  induction fuel as [| fuel IH]; intros x Hx; [reflexivity |].
  destruct (Hclosed x Hx) as (y & Hy & Cy).
  destruct (calculateEventDate_ref fuel off nowYear x y allEvents Hy) as (p & u & d & _ & _ & _ & ->).
  rewrite (IH y Cy). reflexivity.
Qed.

Lemma reference_cycle_diverges_witness :
  (forall x, (x = pair_a \/ x = pair_b) ->
     exists y, reference_of [pair_a; pair_b] x = Some y /\ (y = pair_a \/ y = pair_b)) /\
  calculateEventDate 1000 0 2024 pair_a [pair_a; pair_b] = Diverge.
Proof.
  assert (H : forall x, (x = pair_a \/ x = pair_b) ->
     exists y, reference_of [pair_a; pair_b] x = Some y /\ (y = pair_a \/ y = pair_b)).
  { intros x [-> | ->]; [exists pair_b | exists pair_a]; split; auto. }
  split; [exact H |].
  exact (reference_cycle_diverges (fun x => x = pair_a \/ x = pair_b) _ 0 2024 H 1000 pair_a
           (or_introl eq_refl)).
Defined.

Lemma self_reference_never_resolves :
  ~ exists fuel r, calculateEventDate fuel 0 2024 self_ref [self_ref] = Ret r.
Proof.
  intros (fuel & r & H).
  assert (D : forall f, calculateEventDate f 0 2024 self_ref [self_ref] = Diverge).
  { induction f as [| f IH]; [reflexivity |].
    destruct (calculateEventDate_ref f 0 2024 self_ref self_ref [self_ref] eq_refl)
      as (p & u & d & _ & _ & _ & ->).
    rewrite IH. reflexivity. }
  rewrite D in H. discriminate.
Qed.

(** The resolver has no throw of its own (shared by the claims below). *)
Lemma calculateEventDate_no_throw : forall fuel off nowYear e allEvents err,
  calculateEventDate fuel off nowYear e allEvents <> Throw err.
Proof.
  induction fuel as [| fuel IH]; intros off nowYear e allEvents err; [discriminate |].
  cbn [calculateEventDate].
  destruct (String.eqb (dateType e) "fixed");
    [destruct (startDate e) as [v |]; [destruct (truthy_date (Some v)) |]; discriminate |].
  destruct (String.eqb (dateType e) "nth").
  - destruct (nthOccurrence e), (dayOfWeek e), (month e); try discriminate.
    destruct (_ || _); [discriminate |].
    destruct (calculateNthDate _ _ _ _ _ _); discriminate.
  - destruct (String.eqb (dateType e) "relative"); [| discriminate].
    destruct (relativeEventName e), (relativePeriod e), (relativeUnit e),
      (relativeDirection e); try discriminate.
    destruct (_ || _ || _ || _); [discriminate |].
    destruct (find _ _) as [r |]; [| discriminate].
    specialize (IH off nowYear r allEvents err).
    destruct (calculateEventDate fuel off nowYear r allEvents) as [[rd |] | x |];
      try discriminate.
    + destruct (calculateRelativeDate _ _ _ _ _); discriminate.
    + exact IH.
Qed.

(** Events of a set closed under [reference_of] never resolve. *)
Lemma closed_references_diverge : forall (C : Event -> Prop) allEvents off nowYear,
  (forall x, C x -> exists y, reference_of allEvents x = Some y /\ C y) ->
  forall fuel x, C x -> calculateEventDate fuel off nowYear x allEvents = Diverge.
Proof.
  intros C allEvents off nowYear Hclosed fuel.
  induction fuel as [| fuel IH]; intros x Hx; [reflexivity |].
  destruct (Hclosed x Hx) as (y & Hy & Cy).
  destruct (calculateEventDate_ref fuel off nowYear x y allEvents Hy)
    as (p & u & d & _ & _ & _ & ->).
  rewrite (IH y Cy). reflexivity.
Qed.

(** C3 (as the code has it): missing required fields of the active mode give
    null without throwing: a falsy startDate of a fixed event; a missing or
    zero nthOccurrence or month, or a null dayOfWeek, of an nth event
    (dayOfWeek is only compared with null and undefined, so 0, Sunday, is
    accepted); a missing or falsy relativeEventName, relativePeriod,
    relativeUnit or relativeDirection of a relative event.  A unit outside
    days, weeks, months and years is only noticed after the reference is
    resolved: the event gives null exactly when the resolution of its
    reference terminates, and it does not terminate when it sits on a
    reference cycle (a set of events closed under [reference_of]). *)
Theorem unresolvable_input_null :
  (forall fuel off nowYear e allEvents, (1 <= fuel)%nat -> dateType e = "fixed"%string ->
     truthy_date (startDate e) = false ->
     calculateEventDate fuel off nowYear e allEvents = Ret None) /\
  (forall fuel off nowYear e allEvents, (1 <= fuel)%nat -> dateType e = "nth"%string ->
     (truthy_num (nthOccurrence e) = false \/ dayOfWeek e = None \/
      truthy_num (month e) = false) ->
     calculateEventDate fuel off nowYear e allEvents = Ret None) /\
  (forall fuel off nowYear e allEvents, (1 <= fuel)%nat -> dateType e = "relative"%string ->
     truthy_str (relativeEventName e) && truthy_num (relativePeriod e)
       && truthy_str (relativeUnit e) && truthy_str (relativeDirection e) = false ->
     calculateEventDate fuel off nowYear e allEvents = Ret None) /\
  (forall fuel off nowYear e allEvents r unit,
     reference_of allEvents e = Some r -> relativeUnit e = Some unit ->
     ~ In unit ["days"; "weeks"; "months"; "years"]%string ->
     calculateEventDate (S fuel) off nowYear e allEvents =
     match calculateEventDate fuel off nowYear r allEvents with
     | Diverge => Diverge
     | _ => Ret None
     end) /\
  (forall (C : Event -> Prop) allEvents off nowYear,
     (forall x, C x -> exists y, reference_of allEvents x = Some y /\ C y) ->
     forall fuel e unit, C e -> relativeUnit e = Some unit ->
     ~ In unit ["days"; "weeks"; "months"; "years"]%string ->
     calculateEventDate fuel off nowYear e allEvents = Diverge).
Proof.
  split; [| split; [| split; [| split]]].
  - intros fuel off nowYear e allEvents Hf Hd Hs.
    destruct fuel as [| fuel]; [lia |]. cbn [calculateEventDate]. rewrite Hd.
    cbn [String.eqb Ascii.eqb Bool.eqb].
    destruct (startDate e) as [v |]; [rewrite Hs |]; reflexivity.
  - intros fuel off nowYear e allEvents Hf Hd Hm.
    destruct fuel as [| fuel]; [lia |]. cbn [calculateEventDate]. rewrite Hd.
    cbn [String.eqb Ascii.eqb Bool.eqb].
    destruct (nthOccurrence e) as [n |], (dayOfWeek e) as [dow |], (month e) as [m |];
      try reflexivity.
    destruct Hm as [Hm | [Hm | Hm]]; [rewrite Hm | discriminate | rewrite Hm, orb_true_r];
      reflexivity.
  - intros fuel off nowYear e allEvents Hf Hd Ht.
    destruct fuel as [| fuel]; [lia |].
    destruct (dateType_relative e Hd) as (H1 & H2 & H3).
    cbn [calculateEventDate]. rewrite H1, H2, H3.
    destruct (relativeEventName e) as [name |], (relativePeriod e) as [period |],
      (relativeUnit e) as [unit |], (relativeDirection e) as [dir |]; try reflexivity.
    rewrite <- !negb_andb, Ht. reflexivity.
  - intros fuel off nowYear e allEvents r unit Hr Hu Hin.
    destruct (calculateEventDate_ref fuel off nowYear e r allEvents Hr)
      as (p & u & d & _ & Hu' & _ & ->).
    rewrite Hu in Hu'. injection Hu' as <-.
    pose proof (calculateEventDate_no_throw fuel off nowYear r allEvents) as NT.
    destruct (calculateEventDate fuel off nowYear r allEvents) as [[rd |] | x |];
      [| reflexivity | exfalso; exact (NT x eq_refl) | reflexivity].
    rewrite calculateRelativeDate_invalid by exact Hin. reflexivity.
  - intros C allEvents off nowYear Hclosed fuel e unit He _ _.
    exact (closed_references_diverge C allEvents off nowYear Hclosed fuel e He).
Qed.

Lemma unresolvable_input_null_witness :
  calculateEventDate 10 0 2024 no_start failure_snapshot = Ret None /\
  calculateEventDate 10 0 2024 no_weekday [no_weekday] = Ret None /\
  calculateEventDate 10 0 2024 blank_period (blank_period :: failure_snapshot) = Ret None /\
  calculateEventDate 10 0 2024 bad_unit failure_snapshot = Ret None /\
  calculateEventDate 10 0 2024 bad_unit_self [bad_unit_self] = Diverge.
Proof.
  destruct unresolvable_input_null as (A & B & C & D & E).
  split; [apply (A 10%nat 0 2024 no_start failure_snapshot); [lia | reflexivity | reflexivity] |].
  split; [apply (B 10%nat 0 2024 no_weekday [no_weekday]); [lia | reflexivity | right; left; reflexivity] |].
  split; [apply (C 10%nat 0 2024 blank_period (blank_period :: failure_snapshot)); [lia | reflexivity | reflexivity] |].
  assert (Hin : forall u, u = "fortnights"%string ->
                ~ In u ["days"; "weeks"; "months"; "years"]%string).
  { intros u -> H; repeat destruct H as [H | H]; try discriminate; exact H. }
  split.
  - rewrite (D 9%nat 0 2024 bad_unit failure_snapshot christmas "fortnights"%string
               eq_refl eq_refl (Hin _ eq_refl)).
    vm_compute. reflexivity.
  - apply (E (fun x => x = bad_unit_self) [bad_unit_self] 0 2024) with (unit := "fortnights"%string);
      [| reflexivity | reflexivity | exact (Hin _ eq_refl)].
    intros x ->. exists bad_unit_self. split; reflexivity.
Defined.

Lemma invalid_unit_self_reference_loops :
  ~ exists fuel r, calculateEventDate fuel 0 2024 bad_unit_self [bad_unit_self] = Ret r.
Proof.
  intros (fuel & r & H).
  assert (D : forall f, calculateEventDate f 0 2024 bad_unit_self [bad_unit_self] = Diverge).
  { induction f as [| f IH]; [reflexivity |].
    destruct (calculateEventDate_ref f 0 2024 bad_unit_self bad_unit_self [bad_unit_self]
                eq_refl) as (p & u & d & _ & _ & _ & ->).
    rewrite IH. reflexivity. }
  rewrite D in H. discriminate.
Qed.

(** C2 (as the code has it): calculateEventDate returns a [Date] or null
    and never throws an error of its own: errors of calculateNthDate and
    calculateRelativeDate are caught.  Every failure cause gives the same
    null: a missing startDate, a fifth Monday that does not exist, an
    invalid unit and a dangling reference all resolve to null. *)
Theorem resolver_result_kinds :
  (forall fuel off nowYear e allEvents err,
     calculateEventDate fuel off nowYear e allEvents <> Throw err) /\
  map (fun e => calculateEventDate 10 0 2024 e failure_snapshot)
    [no_start; fifth_monday; bad_unit; dangling] = [Ret None; Ret None; Ret None; Ret None].
Proof.
  split.
  - induction fuel as [| fuel IH]; intros off nowYear e allEvents err; [discriminate |].
    cbn [calculateEventDate].
    destruct (String.eqb (dateType e) "fixed");
      [destruct (startDate e) as [v |]; [destruct (truthy_date (Some v)) |]; discriminate |].
    destruct (String.eqb (dateType e) "nth").
    + destruct (nthOccurrence e), (dayOfWeek e), (month e); try discriminate.
      destruct (_ || _); [discriminate |].
      destruct (calculateNthDate _ _ _ _ _ _); discriminate.
    + destruct (String.eqb (dateType e) "relative"); [| discriminate].
      destruct (relativeEventName e), (relativePeriod e), (relativeUnit e),
        (relativeDirection e); try discriminate.
      destruct (_ || _ || _ || _); [discriminate |].
      destruct (find _ _) as [r |]; [| discriminate].
      specialize (IH off nowYear r allEvents err).
      destruct (calculateEventDate fuel off nowYear r allEvents) as [[rd |] | x |];
        try discriminate.
      * destruct (calculateRelativeDate _ _ _ _ _); discriminate.
      * exact IH.
  - vm_compute. reflexivity.
Qed.

Lemma failure_causes_collapse :
  calculateEventDate 10 0 2024 no_start failure_snapshot
    = calculateEventDate 10 0 2024 dangling failure_snapshot /\
  calculateEventDate 10 0 2024 fifth_monday failure_snapshot
    = calculateEventDate 10 0 2024 dangling failure_snapshot /\
  calculateEventDate 10 0 2024 bad_unit failure_snapshot
    = calculateEventDate 10 0 2024 dangling failure_snapshot.
Proof. vm_compute. repeat split. Qed.

Lemma resolver_result_kinds_witness :
  calculateEventDate 10 0 2024 bad_unit failure_snapshot <> Throw (InvalidUnit "fortnights").
Proof. exact (proj1 resolver_result_kinds 10%nat 0 2024 bad_unit failure_snapshot _). Defined.

(** C9 (as the code has it): resolution reads nothing but its arguments, the
    runtime time-zone offset and the current year: a result does not change
    with a deeper recursion bound, and when every nth event involved in the
    resolution (the event and the events reached from it by references) has
    a base year, the result does not depend on the current year.  An nth
    event without a base year takes the year of the clock, so two
    resolutions in different years differ. *)
Theorem resolution_deterministic :
  (forall f f' off nowYear e allEvents, (f <= f')%nat ->
     calculateEventDate f off nowYear e allEvents <> Diverge ->
     calculateEventDate f' off nowYear e allEvents = calculateEventDate f off nowYear e allEvents) /\
  (forall f off nowYear1 nowYear2 e allEvents,
     (forall x, involved allEvents e x ->
        dateType x = "nth"%string -> truthy_num (baseYear x) = true) ->
     calculateEventDate f off nowYear1 e allEvents = calculateEventDate f off nowYear2 e allEvents).
Proof.
  split.
  - induction f as [| f IH]; intros f' off nowYear e allEvents Hf H;
      [contradiction H; reflexivity |].
    destruct f' as [| f']; [lia |]. cbn [calculateEventDate] in *.
    destruct (String.eqb (dateType e) "fixed"); [reflexivity |].
    destruct (String.eqb (dateType e) "nth").
    + destruct (nthOccurrence e), (dayOfWeek e), (month e); try reflexivity.
      destruct (_ || _); [reflexivity |].
      rewrite (calculateNthDate_mono f f') by
        (try lia; intro E; rewrite E in H; contradiction H; reflexivity).
      reflexivity.
    + destruct (String.eqb (dateType e) "relative"); [| reflexivity].
      destruct (relativeEventName e), (relativePeriod e), (relativeUnit e),
        (relativeDirection e); try reflexivity.
      destruct (_ || _ || _ || _); [reflexivity |].
      destruct (find _ _) as [r |]; [| reflexivity].
      rewrite (IH f'); [reflexivity | lia |].
      intro E; rewrite E in H; contradiction H; reflexivity.
  - induction f as [| f IH]; intros off nowYear1 nowYear2 e allEvents Hall;
      [reflexivity |].
    destruct (reference_of allEvents e) as [r |] eqn:R.
    + destruct (calculateEventDate_ref f off nowYear1 e r allEvents R)
        as (p & u & d & P1 & U1 & D1 & ->).
      destruct (calculateEventDate_ref f off nowYear2 e r allEvents R)
        as (p' & u' & d' & P2 & U2 & D2 & ->).
      rewrite P1 in P2. rewrite U1 in U2. rewrite D1 in D2.
      injection P2 as <-. injection U2 as <-. injection D2 as <-.
      rewrite (IH off nowYear1 nowYear2 r allEvents); [reflexivity |].
      intros x Hx. apply Hall.
      induction Hx as [| x r' Hx IHx Hr'].
      * exact (involved_ref _ _ _ _ (involved_self _ _) R).
      * exact (involved_ref _ _ _ _ IHx Hr').
    + cbn [calculateEventDate].
      destruct (String.eqb (dateType e) "fixed"); [reflexivity |].
      destruct (String.eqb_spec (dateType e) "nth") as [Hn | Hn].
      * specialize (Hall e (involved_self _ _) Hn).
        destruct (nthOccurrence e), (dayOfWeek e), (month e); try reflexivity.
        destruct (baseYear e) as [b |]; [| discriminate Hall]. rewrite Hall. reflexivity.
      * destruct (String.eqb (dateType e) "relative") eqn:Rl; [| reflexivity].
        unfold reference_of in R. rewrite Rl in R.
        destruct (relativeEventName e), (relativePeriod e), (relativeUnit e),
          (relativeDirection e); try reflexivity.
        rewrite <- !negb_andb. destruct (_ && _ && _ && _); [| reflexivity].
        cbn [negb]. rewrite R. reflexivity.
Qed.

Lemma resolution_deterministic_witness :
  calculateEventDate 20 0 2024 christmas failure_snapshot
    = calculateEventDate 10 0 2024 christmas failure_snapshot /\
  calculateEventDate 10 0 2024 boxing_day holiday_snapshot
    = calculateEventDate 10 0 2030 boxing_day holiday_snapshot.
Proof.
  split.
  - apply (proj1 resolution_deterministic 10%nat 20%nat 0 2024 christmas failure_snapshot);
      [lia | vm_compute; discriminate].
  - apply (proj2 resolution_deterministic 10%nat 0 2024 2030 boxing_day holiday_snapshot).
    assert (I : forall x, involved holiday_snapshot boxing_day x ->
                x = boxing_day \/ x = christmas).
    { intros x Hx. induction Hx as [| x r Hx IH R]; [left; reflexivity |].
      destruct IH as [-> | ->]; vm_compute in R;
        [injection R as <-; right; reflexivity | discriminate R]. }
    intros x Hx. destruct (I x Hx) as [-> | ->]; intros H; discriminate H.
Defined.

Lemma resolution_depends_on_clock :
  calculateEventDate 10 0 2024 thanksgiving [thanksgiving]
  <> calculateEventDate 10 0 2025 thanksgiving [thanksgiving].
Proof. vm_compute. discriminate. Qed.

(** * Further properties *)

Lemma getDay_range : forall off d, getDay off d = None \/
  exists w, getDay off d = Some w /\ 0 <= w <= 6.
Proof.
  intros off [t |]; [right | left; reflexivity].
  eexists; split; [reflexivity |]. unfold week_day.
  pose proof (Z.mod_pos_bound (Day (t + off) + 4) 7 ltac:(lia)). lia.
Qed.

Lemma scan_forward_no_weekday : forall off dow fuel d, ~ (0 <= dow <= 6) ->
  scan_forward off dow fuel d = Diverge.
Proof.
  intros off dow fuel. induction fuel as [| fuel IH]; intros d H; [reflexivity |].
  cbn [scan_forward].
  replace (differs (getDay off d) dow) with true; [apply IH; exact H |].
  destruct (getDay_range off d) as [-> | (w & -> & Hw)]; [reflexivity |].
  cbn. destruct (Z.eqb_spec w dow); [lia | reflexivity].
Qed.

Lemma getMonth_range : forall off d, getMonth off d = None \/
  exists mi, getMonth off d = Some mi /\ 0 <= mi <= 11.
Proof.
  intros off [t |]; [right | left; reflexivity].
  unfold getMonth, local_civil. cbn [option_map].
  destruct (civil_from_days (Day (t + off))) as [[y m] d] eqn:C.
  apply civil_from_days_ok in C as [[Hm _] _]. exists (m - 1). split; [reflexivity | lia].
Qed.

(** X2: calculateNthDate with a month outside 1..12 (and an occurrence other than -1) never returns a date: it throws the no-occurrence error or does not terminate. *)
Theorem nth_date_bad_month : forall fuel off nth dow month year,
  ~ (1 <= month <= 12) -> nth <> -1 ->
  calculateNthDate fuel off nth dow month year = Throw (NoOccurrence nth) \/
  calculateNthDate fuel off nth dow month year = Diverge.
Proof.
  intros fuel off nth dow month year Hm Hn. unfold calculateNthDate.
  destruct (scan_forward _ _ _ _) as [date | e |] eqn:E.
  - left. replace (nth =? -1) with false by (symmetry; apply Z.eqb_neq; exact Hn).
    match goal with |- context [getMonth off ?d] =>
      destruct (getMonth_range off d) as [-> | (mi & -> & Hmi)] end; [reflexivity |].
    cbn. destruct (Z.eqb_spec mi (month - 1)); [lia | reflexivity].
  - exfalso. clear -E. revert E. generalize (newDate off (Some year) (Some (month - 1)) (Some 1)).
    induction fuel as [| fuel IH]; intros d E; cbn [scan_forward] in E; [discriminate |].
    destruct (differs _ _); [exact (IH _ E) | discriminate].
  - right. reflexivity.
Qed.

Lemma nth_date_bad_month_witness :
  calculateNthDate 50%nat 0 1 1 13 2024 = Throw (NoOccurrence 1) \/
  calculateNthDate 50%nat 0 1 1 13 2024 = Diverge.
Proof. apply nth_date_bad_month; lia. Defined.

(** X1: calculateNthDate with a dayOfWeek outside 0..6 never terminates, since getDay() never equals it; so neither does calculateEventDate on an nth event with such a dayOfWeek and truthy occurrence and month. *)
Theorem nth_bad_weekday_diverges :
  (forall fuel off nth dow month year,
     ~ (0 <= dow <= 6) -> calculateNthDate fuel off nth dow month year = Diverge) /\
  (forall fuel off nowYear e allEvents n dow m,
     dateType e = "nth"%string -> nthOccurrence e = Some n -> dayOfWeek e = Some dow ->
     month e = Some m -> n <> 0 -> m <> 0 -> ~ (0 <= dow <= 6) ->
     calculateEventDate fuel off nowYear e allEvents = Diverge).
Proof.
  assert (N : forall fuel off nth dow month year,
     ~ (0 <= dow <= 6) -> calculateNthDate fuel off nth dow month year = Diverge).
  { intros fuel off nth dow month year H. unfold calculateNthDate.
    rewrite scan_forward_no_weekday by exact H. reflexivity. }
  split; [exact N |].
  intros fuel off nowYear e allEvents n dow m Hd Hn Hw Hm Hn0 Hm0 H.
  destruct fuel as [| fuel]; [reflexivity |]. cbn [calculateEventDate]. rewrite Hd.
  cbn [String.eqb Ascii.eqb Bool.eqb]. rewrite Hn, Hw, Hm. cbn [truthy_num].
  rewrite (proj2 (Z.eqb_neq n 0) Hn0), (proj2 (Z.eqb_neq m 0) Hm0). cbn [negb orb].
  rewrite N by exact H. reflexivity.
Qed.

Lemma nth_bad_weekday_diverges_witness :
  calculateNthDate 50%nat 0 1 7 3 2024 = Diverge /\
  calculateEventDate 50%nat 0 2024 (nth_event "40" "Odd weekday" 1 7 3 None) [] = Diverge.
Proof.
  split.
  - apply (proj1 nth_bad_weekday_diverges). lia.
  - apply (proj2 nth_bad_weekday_diverges 50%nat 0 2024 _ [] 1 7 3);
      first [reflexivity | lia].
Defined.







(** Day [d] of month [m], or the day it runs over to in the following month. *)
Lemma civil_day_of_month : forall y m d, 1 <= m <= 12 -> 1 <= d <= 32 ->
  (d <= days_in_month y m ->
     civil_from_days (days_from_civil y m 1 + d - 1) = (y, m, d)) /\
  (days_in_month y m < d ->
     civil_from_days (days_from_civil y m 1 + d - 1)
     = (fst (next_month y m), snd (next_month y m), d - days_in_month y m)).
Proof.
  intros y m d Hm Hd. pose proof (days_in_month_bounds y m) as B. split; intros H.
  - rewrite <- days_from_civil_day. apply days_from_civil_ok. split; lia.
  - replace (days_from_civil y m 1 + d - 1)
      with (days_from_civil y m 1 + days_in_month y m + (d - days_in_month y m) - 1) by ring.
    rewrite next_month_start by exact Hm. unfold next_month.
    destruct (Z.eqb_spec m 12) as [-> | E]; cbn [fst snd].
    + rewrite <- days_from_civil_day. apply days_from_civil_ok.
      pose proof (days_in_month_bounds (y + 1) 1). split; lia.
    + rewrite <- days_from_civil_day. apply days_from_civil_ok.
      pose proof (days_in_month_bounds y (m + 1)). split; lia.
Qed.





Lemma number_string_year : forall y, 1000 <= y <= 9999 ->
  number_string (Some y) = pad_digits 4 y.
Proof.
  intros y Hy. unfold number_string. rewrite Z.abs_eq by lia.
  replace (y <? 0) with false by (symmetry; apply Z.ltb_ge; lia).
  assert (L : 9 <= Z.log2 y).
  { change 9 with (Z.log2 512). apply Z.log2_le_mono. lia. }
  destruct (Z.to_nat (Z.log2 y)) as [|[|[|[|k]]]] eqn:E; try lia.
  cbn [digit_count].
  rewrite !Zdiv_Zdiv by lia.
  replace (y <? 10) with false by (symmetry; apply Z.ltb_ge; lia).
  replace (y / 10 <? 10) with false
    by (symmetry; apply Z.ltb_ge; Z.div_mod_to_equations; lia).
  replace (y / (10 * 10) <? 10) with false
    by (symmetry; apply Z.ltb_ge; Z.div_mod_to_equations; lia).
  replace (y / (10 * 10 * 10) <? 10) with true
    by (symmetry; apply Z.ltb_lt; Z.div_mod_to_equations; lia).
  reflexivity.
Qed.

Lemma padStart_two : forall v, 0 <= v <= 99 ->
  padStart 2 "0" (number_string (Some v)) = pad_digits 2 v.
Proof.
  intros v Hv.
  assert (A : all_upto 100 0 (fun v => String.eqb (padStart 2 "0" (number_string (Some v)))
                                                  (pad_digits 2 v)) = true)
    by (vm_compute; reflexivity).
  apply String.eqb_eq. apply (all_upto_spec _ _ _ A). lia.
Qed.

Lemma format_midnight : forall off y m d, valid_civil y m d -> 1000 <= y <= 9999 ->
  formatDateForAllDay off (local_midnight off y m d) = ymd_compact y m d.
Proof.
  intros off y m d H Hy. pose proof H as [Hm Hd].
  pose proof (days_in_month_bounds y m).
  unfold formatDateForAllDay, local_midnight, getFullYear, getMonth, getDate, num_add.
  cbn [option_map]. rewrite local_civil_midnight, days_from_civil_ok by exact H.
  cbv beta iota. replace (m - 1 + 1) with m by ring.
  rewrite number_string_year, !padStart_two by lia. reflexivity.
Qed.

(** X6: In the ICS export, every event except a fixed one with an endDate is exported from the date calculateEventDate gives it, ending one day later; an event it resolves to null is skipped. *)
Theorem ics_dates_resolved : forall fuel off nowYear e events,
  (String.eqb e.(dateType) "fixed" = false \/ truthy_date e.(endDate) = false) ->
  ics_event_dates fuel off nowYear e events =
  match calculateEventDate fuel off nowYear e events with
  | Ret (Some t) => Ret (Some (t, day_after t))
  | Ret None => Ret None
  | Throw x => Throw x
  | Diverge => Diverge
  end.
Proof.
  intros fuel off nowYear e events H.
  assert (N : forall t, setDate off t (num_add (getDate off t) 1) = day_after t).
  { intros [x |]; [| reflexivity]. cbn [day_after]. rewrite setDate_add.
    rewrite Z.mul_1_l. reflexivity. }
  destruct fuel as [| fuel]; [reflexivity |].
  unfold ics_event_dates. cbv beta zeta iota.
  destruct (String.eqb (dateType e) "fixed") eqn:F.
  - cbn [calculateEventDate]. rewrite F.
    destruct H as [H | H]; [congruence |]. rewrite H.
    destruct (startDate e) as [v |]; [| reflexivity].
    destruct (truthy_date (Some v)); rewrite ?N; reflexivity.
  - destruct (String.eqb (dateType e) "nth") eqn:Nt.
    + cbn [calculateEventDate]. rewrite F, Nt.
      destruct (nthOccurrence e), (dayOfWeek e), (month e); try reflexivity.
      destruct (_ || _); [reflexivity |].
      destruct (calculateNthDate _ _ _ _ _ _); rewrite ?N; reflexivity.
    + destruct (String.eqb (dateType e) "relative") eqn:R.
      * destruct (calculateEventDate _ _ _ _ _) as [[t |] | x |]; rewrite ?N; reflexivity.
      * cbn [calculateEventDate]. rewrite F, Nt, R. reflexivity.
Qed.

Lemma ics_dates_resolved_witness :
  ics_event_dates 100 0 2024 thanksgiving [] =
  match calculateEventDate 100 0 2024 thanksgiving [] with
  | Ret (Some t) => Ret (Some (t, day_after t))
  | Ret None => Ret None
  | Throw x => Throw x
  | Diverge => Diverge
  end.
Proof. apply ics_dates_resolved. left. reflexivity. Defined.

Lemma format_days : forall off N y m d, civil_from_days N = (y, m, d) -> 1000 <= y <= 9999 ->
  formatDateForAllDay off (Some (N * msPerDay - off)) = ymd_compact y m d.
Proof.
  intros off N y m d C Hy. pose proof C as V. apply civil_from_days_ok in V as [[Hm Hd] _].
  pose proof (days_in_month_bounds y m).
  unfold formatDateForAllDay, getFullYear, getMonth, getDate, num_add.
  cbn [option_map]. rewrite local_civil_midnight, C.
  cbv beta iota. replace (m - 1 + 1) with m by ring.
  rewrite number_string_year, !padStart_two by lia. reflexivity.
Qed.

Lemma split_on_cons : forall sep s, exists p ps, split_on sep s = p :: ps.
Proof.
  intros sep [| c s]; cbn [split_on]; [eauto |].
  destruct (Ascii.eqb c sep); [eauto |].
  destruct (split_on sep s); eauto.
Qed.

(** X7: A fixed event with a valid YYYY-MM-DD startDate (year 1000..9998, optional T time part) and no endDate is exported with DTSTART that date and DTEND the next calendar day, also across month and year ends. *)
Theorem ics_fixed_all_day : forall fuel off nowYear e events y m d rest,
  Z.abs off < msPerDay ->
  dateType e = "fixed"%string ->
  startDate e = Some (DStr (ymd_string y m d ++ rest)) ->
  (rest = EmptyString \/ exists r, rest = String "T" r) ->
  truthy_date (endDate e) = false ->
  valid_civil y m d -> 1000 <= y <= 9998 ->
  exists s t, ics_event_dates (S fuel) off nowYear e events = Ret (Some (s, t)) /\
    formatDateForAllDay off s = ymd_compact y m d /\
    formatDateForAllDay off t =
      (if d <? days_in_month y m then ymd_compact y m (d + 1)
       else ymd_compact (fst (next_month y m)) (snd (next_month y m)) 1).
Proof.
  intros fuel off nowYear e events y m d rest Ho Ht Hs Hr He Hv Hy.
  pose proof Hv as [Hm Hd]. pose proof (days_in_month_bounds y m).
  assert (RN : forall i, -1 <= i <= 31 -> in_range (days_from_civil y m 1 + i))
    by (intros i Hi; apply in_range_month; lia).
  unfold ics_event_dates. cbv beta zeta iota.
  rewrite Ht, Hs, He. cbn [String.eqb Ascii.eqb Bool.eqb].
  replace (truthy_date (Some (DStr (ymd_string y m d ++ rest)))) with true by reflexivity.
  rewrite parseSimpleDate_ymd by (assumption || lia).
  rewrite newDate_civil by (assumption || lia ||
    (rewrite days_from_civil_day; replace (days_from_civil y m 1 + d - 1)
       with (days_from_civil y m 1 + (d - 1)) by ring; apply RN; lia)).
  unfold local_midnight. rewrite setDate_midnight by (exact Ho ||
    (rewrite days_from_civil_day; replace (days_from_civil y m 1 + d - 1 + 1)
       with (days_from_civil y m 1 + d) by ring; apply RN; lia)).
  eexists; eexists; split; [reflexivity | split].
  - apply format_days; [apply days_from_civil_ok; exact Hv | lia].
  - rewrite days_from_civil_day.
    replace (days_from_civil y m 1 + d - 1 + 1) with (days_from_civil y m 1 + (d + 1) - 1) by ring.
    destruct (civil_day_of_month y m (d + 1) ltac:(lia) ltac:(lia)) as [C1 C2].
    destruct (Z.ltb_spec d (days_in_month y m)).
    + apply format_days; [apply C1; lia | lia].
    + apply format_days; [rewrite C2 by lia; f_equal; f_equal; lia |].
      unfold next_month. destruct (m =? 12); cbn [fst]; lia.
Qed.

Lemma ics_fixed_all_day_witness :
  exists s t, ics_event_dates 10 0 2024 new_years_eve [] = Ret (Some (s, t)) /\
    formatDateForAllDay 0 s = "20241231"%string /\
    formatDateForAllDay 0 t = "20250101"%string.
Proof.
  destruct (ics_fixed_all_day 9 0 2024 new_years_eve [] 2024 12 31 EmptyString
              ltac:(unfold msPerDay; lia) eq_refl ltac:(vm_compute; reflexivity)
              ltac:(left; reflexivity) eq_refl
              ltac:(unfold valid_civil; vm_compute; split; split; discriminate)
              ltac:(lia)) as (s & t & H1 & H2 & H3).
  exists s, t. split; [exact H1 |]. rewrite H2, H3. vm_compute. split; reflexivity.
Defined.

(** X8: A fixed event whose non-empty startDate string does not start with a number is still exported, with DTSTART and DTEND both NaNNaNNaN. *)
Theorem ics_unparsed_start : forall fuel off nowYear e events s,
  dateType e = "fixed"%string ->
  startDate e = Some (DStr s) -> s <> EmptyString ->
  parseInt (hd EmptyString (split_on "-" (hd EmptyString (split_on "T" s)))) = None ->
  truthy_date (endDate e) = false ->
  exists t1 t2, ics_event_dates (S fuel) off nowYear e events = Ret (Some (t1, t2)) /\
    formatDateForAllDay off t1 = "NaNNaNNaN"%string /\
    formatDateForAllDay off t2 = "NaNNaNNaN"%string.
Proof.
  intros fuel off nowYear e events s Ht Hs Hne Hp He.
  unfold ics_event_dates. cbv beta zeta iota.
  rewrite Ht, Hs, He. cbn [String.eqb Ascii.eqb Bool.eqb].
  replace (truthy_date (Some (DStr s))) with true
    by (destruct s; [congruence | reflexivity]).
  assert (P : parseSimpleDate off (DStr s) = None).
  { unfold parseSimpleDate.
    destruct (split_on_cons "-" (hd EmptyString (split_on "T" s))) as (p & ps & E).
    rewrite E in Hp |- *. cbn [nth_error hd] in Hp |- *. rewrite Hp. reflexivity. }
  rewrite P. do 2 eexists; split; [reflexivity | split; reflexivity].
Qed.

Lemma ics_unparsed_start_witness :
  exists t1 t2, ics_event_dates 10 0 2024 undecided [] = Ret (Some (t1, t2)) /\
    formatDateForAllDay 0 t1 = "NaNNaNNaN"%string /\
    formatDateForAllDay 0 t2 = "NaNNaNNaN"%string.
Proof.
  apply (ics_unparsed_start 9 0 2024 undecided [] "TBD"); try reflexivity.
  discriminate.
Defined.

Lemma map_get_set_same : forall s k v, map_get (map_set s k v) k = Some v.
Proof.
  induction s as [| [k' v'] s IH]; intros k v; cbn [map_set map_get].
  - rewrite String.eqb_refl. reflexivity.
  - destruct (String.eqb_spec k' k) as [-> | E]; cbn [map_get].
    + rewrite String.eqb_refl. reflexivity.
    + apply String.eqb_neq in E. rewrite E. apply IH.
Qed.

Lemma map_get_set_other : forall s k k' v, k' <> k ->
  map_get (map_set s k v) k' = map_get s k'.
Proof.
  induction s as [| [k0 v0] s IH]; intros k k' v Hne; cbn [map_set map_get].
  - apply String.eqb_neq in Hne. rewrite String.eqb_sym, Hne. reflexivity.
  - destruct (String.eqb_spec k0 k) as [-> | E]; cbn [map_get].
    + apply String.eqb_neq in Hne. rewrite String.eqb_sym, Hne. reflexivity.
    + rewrite IH by exact Hne. reflexivity.
Qed.

Lemma map_set_keys : forall s k v,
  map fst (map_set s k v) = if existsb (String.eqb k) (map fst s) then map fst s
                             else map fst s ++ [k].
Proof.
  induction s as [| [k' v'] s IH]; intros k v; cbn [map_set map fst existsb]; [reflexivity |].
  rewrite (String.eqb_sym k k').
  destruct (String.eqb_spec k' k) as [-> | E]; cbn [map fst orb]; [reflexivity |].
  rewrite IH. destruct (existsb _ _); reflexivity.
Qed.

Lemma existsb_eqb_In : forall k l, existsb (String.eqb k) l = true <-> In k l.
Proof.
  intros k l. rewrite existsb_exists. split.
  - intros (x & Hx & E). apply String.eqb_eq in E. subst. exact Hx.
  - intros H. exists k. split; [exact H | apply String.eqb_refl].
Qed.

Lemma map_set_ok : forall s k v, store_ok s -> v.(event).(id) = k -> store_ok (map_set s k v).
Proof.
  intros s k v [Hn Hf] Hv. split.
  - rewrite map_set_keys. destruct (existsb (String.eqb k) (map fst s)) eqn:E; [exact Hn |].
    apply NoDup_app; [exact Hn | constructor; [intros [] | constructor] |].
    intros x Hx [Ex | []]. subst. apply existsb_eqb_In in Hx. congruence.
  - clear Hn. induction s as [| [k' v'] s IH]; cbn [map_set].
    + constructor; [exact Hv | constructor].
    + inversion Hf as [| ? ? H1 H2]; subst.
      destruct (String.eqb_spec k' (id (event v)))as [E | E].
      * constructor; [reflexivity | exact H2].
      * constructor; [exact H1 | apply IH; exact H2].
Qed.

Lemma map_delete_spec : forall s k, NoDup (map fst s) ->
  map_delete s k = (existsb (String.eqb k) (map fst s),
                    filter (fun kv => negb (String.eqb (fst kv) k)) s).
Proof.
  induction s as [| [k' v'] s IH]; intros k Hn; cbn [map_delete map fst existsb filter];
    [reflexivity |].
  inversion Hn as [| ? ? Hk Hn']; subst.
  rewrite (String.eqb_sym k k').
  destruct (String.eqb_spec k' k) as [-> | E]; cbn [negb orb].
  - f_equal. symmetry. apply forallb_filter_id. apply forallb_forall.
    intros [x y] Hx. apply (in_map fst) in Hx. cbn [fst] in Hx |- *.
    destruct (String.eqb_spec x k); [subst; contradiction | reflexivity].
  - rewrite IH by exact Hn'. reflexivity.
Qed.

Lemma insert_by_createdAt_perm : forall x l, Permutation (insert_by_createdAt x l) (x :: l).
Proof.
  intros x l. induction l as [| y l IH]; cbn [insert_by_createdAt]; [reflexivity |].
  destruct (createdAt x <? createdAt y); [reflexivity |].
  rewrite IH. apply perm_swap.
Qed.

Lemma getAllEvents_perm : forall s, Permutation (getAllEvents s) (map snd s).
Proof.
  intros s. unfold getAllEvents.
  assert (G : forall l acc, Permutation (fold_left (fun acc x => insert_by_createdAt x acc) l acc)
                                        (acc ++ l)).
  { induction l as [| x l IH]; intros acc; cbn [fold_left].
    - rewrite app_nil_r. reflexivity.
    - rewrite IH, insert_by_createdAt_perm. apply Permutation_middle. }
  apply G.
Qed.

Lemma store_ok_ids : forall s, store_ok s ->
  map (fun v => v.(event).(id)) (map snd s) = map fst s.
Proof.
  intros s [_ Hf]. induction s as [| [k v] s IH]; [reflexivity |].
  inversion Hf as [| ? ? H1 H2]; subst. cbn [map snd fst] in *. rewrite H1, IH by exact H2.
  reflexivity.
Qed.

Lemma perm_filter : forall (A : Type) (f : A -> bool) l l',
  Permutation l l' -> Permutation (filter f l) (filter f l').
Proof.
  intros A f l l' P. induction P; cbn [filter].
  - constructor.
  - destruct (f x); [constructor |]; exact IHP.
  - destruct (f x), (f y); try constructor; reflexivity.
  - etransitivity; eassumption.
Qed.

Lemma map_fst_filter : forall (p : string -> bool) (s : Store),
  map fst (filter (fun kv => p (fst kv)) s) = filter p (map fst s).
Proof.
  intros p s. induction s as [| [k v] s IH]; cbn [filter map fst]; [reflexivity |].
  destruct (p k); cbn [map fst]; rewrite IH; reflexivity.
Qed.

Lemma clear_loop : forall L n st, NoDup (map fst st) ->
  Permutation (map (fun v => v.(event).(id)) L) (map fst st) ->
  fold_left (fun '(deletedCount, st) ev =>
               let '(deleted, st') := deleteEvent st ev.(event).(id) in
               (if deleted then S deletedCount else deletedCount, st')) L (n, st)
  = ((n + List.length L)%nat, []).
Proof.
  induction L as [| ev L IH]; intros n st Hn P; cbn [fold_left map List.length] in *.
  - apply Permutation_nil in P. destruct st; [| discriminate P].
    rewrite Nat.add_0_r. reflexivity.
  - set (k := ev.(event).(id)) in *.
    assert (Hk : In k (map fst st)) by (eapply Permutation_in; [exact P | left; reflexivity]).
    unfold deleteEvent. rewrite map_delete_spec by exact Hn.
    replace (existsb (String.eqb k) (map fst st)) with true
      by (symmetry; apply existsb_eqb_In; exact Hk).
    rewrite IH.
    + f_equal. lia.
    + rewrite (map_fst_filter (fun x => negb (String.eqb x k))). apply NoDup_filter. exact Hn.
    + rewrite (map_fst_filter (fun x => negb (String.eqb x k))).
      pose proof (Permutation_NoDup (Permutation_sym P) Hn) as Nd.
      inversion Nd as [| ? ? Hnot Nd']; subst.
      rewrite <- (perm_filter _ (fun x => negb (String.eqb x k)) _ _ P). cbn [filter].
      rewrite String.eqb_refl. cbn [negb].
      apply Permutation_refl'. symmetry. apply forallb_filter_id. apply forallb_forall. intros x Hx.
      destruct (String.eqb_spec x k); [subst; contradiction | reflexivity].
Qed.

Lemma sample_store_ok : store_ok sample_store.
Proof.
  split.
  - repeat constructor; cbn; intuition discriminate.
  - repeat constructor.
Qed.

(** X13: Clearing all events deletes every stored event, leaves the store empty and reports the number of events the store held. *)
Theorem clear_all_empties : forall s, store_ok s ->
  clearAllEvents s = (List.length s, []).
Proof.
  intros s Hs. unfold clearAllEvents. pose proof (getAllEvents_perm s) as P.
  rewrite clear_loop.
  - rewrite (Permutation_length P), length_map. reflexivity.
  - exact (proj1 Hs).
  - rewrite <- store_ok_ids by exact Hs. apply Permutation_map. exact P.
Qed.

Lemma clear_all_empties_witness : clearAllEvents sample_store = (2%nat, []).
Proof. apply (clear_all_empties sample_store sample_store_ok). Defined.

Lemma mark_keys : forall f done s, map fst (mark f done s) = map fst s.
Proof. intros f done s. unfold mark. rewrite map_map. reflexivity. Qed.

Lemma map_get_In : forall s k v, NoDup (map fst s) -> In (k, v) s -> map_get s k = Some v.
Proof.
  induction s as [| [k' v'] s IH]; intros k v Hn Hin; [destruct Hin |].
  inversion Hn as [| ? ? Hk Hn']; subst. cbn [map_get].
  destruct Hin as [E | Hin].
  - injection E as -> ->. rewrite String.eqb_refl. reflexivity.
  - destruct (String.eqb_spec k' k) as [-> | E].
    + apply (in_map fst) in Hin. contradiction.
    + apply IH; assumption.
Qed.

Lemma map_get_mark : forall f done s k,
  map_get (mark f done s) k =
  option_map (fun v => if existsb (String.eqb k) done then f v else v) (map_get s k).
Proof.
  intros f done s k. induction s as [| [k' v'] s IH]; [reflexivity |].
  cbn [mark map map_get fst snd] in *. fold (mark f done s).
  destruct (String.eqb_spec k' k) as [-> | E]; [reflexivity | exact IH].
Qed.

Lemma map_set_same : forall s k v, NoDup (map fst s) -> map_get s k = Some v ->
  map_set s k v = s.
Proof.
  induction s as [| [k' v'] s IH]; intros k v Hn H; [discriminate H |].
  inversion Hn; subst. cbn [map_get map_set] in *.
  destruct (String.eqb_spec k' k) as [-> | E].
  - injection H as ->. reflexivity.
  - rewrite IH by assumption. reflexivity.
Qed.

Lemma map_set_mark : forall f done s k v, NoDup (map fst s) -> map_get s k = Some v ->
  map_set (mark f done s) k (f v) = mark f (k :: done) s.
Proof.
  intros f done s. induction s as [| [k' v'] s IH]; intros k v Hn H; [discriminate H |].
  inversion Hn as [| ? ? Hk Hn']; subst. cbn [map_get] in H.
  cbn [mark map map_set fst snd existsb]. fold (mark f done s). fold (mark f (k :: done) s).
  destruct (String.eqb_spec k' k) as [-> | E].
  - injection H as ->. cbn [orb]. f_equal.
    unfold mark. apply map_ext_in. intros [x w] Hx. cbn [fst snd existsb].
    destruct (String.eqb_spec x k) as [-> | _]; [| reflexivity].
    apply (in_map fst) in Hx. contradiction.
  - cbn [orb]. f_equal. apply IH; assumption.
Qed.

Lemma apply_year_patch : forall e y, apply_patch e (year_patch y) = set_baseYear e y.
Proof. intros [] y. reflexivity. Qed.

Lemma year_loop : forall y s L n done, NoDup (map fst s) ->
  (forall ev, In ev L -> map_get s ev.(event).(id) = Some ev) ->
  NoDup (map (fun v => v.(event).(id)) L) ->
  (forall ev, In ev L -> ~ In ev.(event).(id) done) ->
  fold_left (fun '(n, st) ev =>
               if String.eqb ev.(event).(dateType) "nth"
               then (S n, snd (updateEvent st ev.(event).(id) (year_patch y)))
               else (n, st))
            L (n, mark (year_update y) done s)
  = ((n + List.length (filter is_nth L))%nat,
     mark (year_update y) (rev (map (fun v => v.(event).(id)) L) ++ done) s).
Proof.
  intros y s L. induction L as [| ev L IH]; intros n done Hn Hget Hnd Hdone.
  - cbn. rewrite Nat.add_0_r. reflexivity.
  - cbn [fold_left map rev filter]. inversion Hnd as [| ? ? Hk Hnd']; subst.
    set (k := ev.(event).(id)) in *.
    assert (Gk : map_get s k = Some ev) by (apply Hget; left; reflexivity).
    assert (Kd : ~ In k done) by (apply Hdone; left; reflexivity).
    assert (Step : forall n', (if String.eqb ev.(event).(dateType) "nth"
                   then (S n', snd (updateEvent (mark (year_update y) done s) k (year_patch y)))
                   else (n', mark (year_update y) done s))
                  = ((if is_nth ev then S n' else n'), mark (year_update y) (k :: done) s)).
    { intros n'. rewrite <- (map_set_mark _ done s k ev Hn Gk).
      unfold year_update; unfold is_nth. fold k.
      destruct (String.eqb (dateType (event ev)) "nth").
      - unfold updateEvent. rewrite map_get_mark, Gk. cbn [option_map].
        replace (existsb (String.eqb k) done) with false
          by (symmetry; apply Bool.not_true_iff_false; rewrite existsb_eqb_In; exact Kd).
        rewrite apply_year_patch. reflexivity.
      - rewrite map_set_same; [reflexivity | rewrite mark_keys; exact Hn |].
        rewrite map_get_mark, Gk. cbn [option_map].
        replace (existsb (String.eqb k) done) with false
          by (symmetry; apply Bool.not_true_iff_false; rewrite existsb_eqb_In; exact Kd).
        reflexivity. }
    rewrite Step, IH.
    + f_equal.
      * destruct (is_nth ev); cbn [List.length]; lia.
      * rewrite <- app_assoc. reflexivity.
    + exact Hn.
    + intros ev' H'. apply Hget. right. exact H'.
    + exact Hnd'.
    + intros ev' H' [E | E].
      * apply Hk. rewrite E. apply (in_map (fun v => v.(event).(id))). exact H'.
      * exact (Hdone ev' (or_intror H') E).
Qed.

Lemma update_year_valid : forall s y, store_ok s -> 2020 <= y <= 2050 ->
  updateYear s (Some y) =
  (YearUpdated (List.length (filter is_nth (map snd s))) y,
   map (fun kv => (fst kv, year_update y (snd kv))) s).
Proof.
  intros s y Hs Hy. pose proof Hs as [Hn Hf]. unfold updateYear.
  replace ((y =? 0) || (y <? 2020) || (2050 <? y)) with false
    by (symmetry; repeat apply orb_false_intro; first [apply Z.eqb_neq | apply Z.ltb_ge]; lia).
  pose proof (getAllEvents_perm s) as P.
  replace s with (mark (year_update y) [] s) at 2
    by (unfold mark; cbn [existsb]; rewrite map_ext with (g := fun kv => kv) by (intros []; reflexivity);
        apply map_id).
  rewrite year_loop.
  - cbn [Nat.add]. rewrite (Permutation_length (perm_filter _ is_nth _ _ P)). f_equal.
    unfold mark. apply map_ext_in. intros [k v] Hin. cbn [fst snd].
    replace (existsb _ _) with true; [reflexivity |]. symmetry.
    apply existsb_eqb_In. apply in_or_app. left. apply -> in_rev.
    eapply Permutation_in; [apply Permutation_sym, Permutation_map, P |].
    rewrite store_ok_ids by exact Hs. apply (in_map fst) in Hin. exact Hin.
  - exact Hn.
  - intros ev Hev. apply (Permutation_in _ P) in Hev. apply in_map_iff in Hev as ([k v] & <- & Hin).
    cbn [snd]. rewrite Forall_forall in Hf. specialize (Hf _ Hin). cbn [fst snd] in Hf.
    rewrite Hf. apply map_get_In; assumption.
  - apply (Permutation_NoDup (Permutation_sym (Permutation_map (fun v => v.(event).(id)) P))).
    rewrite store_ok_ids by exact Hs. exact Hn.
  - intros ev _ [].
Qed.

(** X9: MemStorage keeps each event under its own id with distinct keys: the empty store has this property, and createEvent, updateEvent and deleteEvent preserve it. *)
Theorem store_invariant :
  store_ok [] /\
  forall s, store_ok s ->
    (forall insertEvent newId now, store_ok (snd (createEvent s insertEvent newId now))) /\
    (forall k p, store_ok (snd (updateEvent s k p))) /\
    (forall k, store_ok (snd (deleteEvent s k))).
Proof.
  split; [split; constructor |].
  intros s Hs. split; [| split].
  - intros ins i now. apply map_set_ok; [exact Hs | reflexivity].
  - intros k p. unfold updateEvent. destruct (map_get s k) as [v |] eqn:G; [| exact Hs].
    cbn [snd]. apply map_set_ok; [exact Hs |]. cbn [event apply_patch id].
    assert (In (k, v) s).
    { clear Hs. induction s as [| [k' v'] s IH]; [discriminate G |]. cbn [map_get] in G.
      destruct (String.eqb_spec k' k) as [-> | E]; [injection G as ->; left; reflexivity |].
      right. apply IH. exact G. }
    destruct Hs as [_ Hf]. rewrite Forall_forall in Hf. exact (Hf _ H).
  - intros k. unfold deleteEvent. destruct Hs as [Hn Hf].
    rewrite map_delete_spec by exact Hn. cbn [snd]. split.
    + rewrite (map_fst_filter (fun x => negb (String.eqb x k))). apply NoDup_filter. exact Hn.
    + rewrite Forall_forall in Hf |- *. intros x Hx. apply filter_In in Hx as [Hx _].
      exact (Hf x Hx).
Qed.

Lemma store_invariant_witness :
  store_ok (snd (deleteEvent (snd (updateEvent (snd (createEvent [] christmas "a" 2)) "a"
                                                 (year_patch 2030))) "a")).
Proof.
  destruct store_invariant as [H0 H].
  apply (H _ (proj1 (proj2 (H _ (proj1 (H _ H0) christmas "a"%string 2))) "a"%string (year_patch 2030))).
Defined.

(** X10: After createEvent, getEvent of the new id returns the created event, which carries that id and the creation time; every other id reads as before. *)
Theorem create_then_get : forall s insertEvent newId now,
  let '(ev, s') := createEvent s insertEvent newId now in
  getEvent s' newId = Some ev /\ ev.(event).(id) = newId /\ ev.(createdAt) = now /\
  forall k, k <> newId -> getEvent s' k = getEvent s k.
Proof.
  intros s ins i now. cbn [createEvent]. split; [| split; [| split]].
  - apply map_get_set_same.
  - reflexivity.
  - reflexivity.
  - intros k Hk. apply map_get_set_other. exact Hk.
Qed.

Lemma create_then_get_witness :
  getEvent (snd (createEvent sample_store christmas "c" 3)) "c"
  = Some (fst (createEvent sample_store christmas "c" 3)) /\
  getEvent (snd (createEvent sample_store christmas "c" 3)) "a" = getEvent sample_store "a".
Proof.
  pose proof (create_then_get sample_store christmas "c" 3) as H.
  destruct (createEvent sample_store christmas "c" 3) as [ev s'] eqn:E.
  destruct H as (H1 & _ & _ & H4). cbn [fst snd]. split; [exact H1 |].
  apply H4. discriminate.
Defined.

(** X11: updateEvent of a missing id returns undefined and leaves the store unchanged; on a present id it overwrites the given fields, keeps id and createdAt, and getEvent then returns the updated event while other ids are unchanged. *)
Theorem update_then_get : forall s k p,
  (getEvent s k = None -> updateEvent s k p = (None, s)) /\
  (forall v, getEvent s k = Some v ->
     let u := {| event := apply_patch v.(event) p; createdAt := v.(createdAt) |} in
     updateEvent s k p = (Some u, map_set s k u) /\
     u.(event).(id) = v.(event).(id) /\
     getEvent (map_set s k u) k = Some u /\
     forall k', k' <> k -> getEvent (map_set s k u) k' = getEvent s k').
Proof.
  intros s k p. unfold getEvent, updateEvent. split.
  - intros G. rewrite G. reflexivity.
  - intros v G. cbv zeta. rewrite G. split; [reflexivity | split; [reflexivity | split]].
    + apply map_get_set_same.
    + intros k' Hk. apply map_get_set_other. exact Hk.
Qed.

Lemma update_then_get_witness :
  updateEvent sample_store "z" (year_patch 2030) = (None, sample_store) /\
  getEvent (snd (updateEvent sample_store "b" (year_patch 2030))) "b"
  = Some {| event := set_baseYear (with_id thanksgiving "b") 2030; createdAt := 1 |}.
Proof.
  destruct (update_then_get sample_store "z" (year_patch 2030)) as [N _].
  destruct (update_then_get sample_store "b" (year_patch 2030)) as [_ S].
  split; [apply N; reflexivity |].
  destruct (S _ eq_refl) as (U & _ & G & _). rewrite U. exact G.
Defined.

Lemma map_get_filter : forall s k k',
  map_get (filter (fun kv => negb (String.eqb (fst kv) k)) s) k' =
  if String.eqb k' k then None else map_get s k'.
Proof.
  intros s k k'. induction s as [| [x v] s IH]; cbn [filter map_get fst].
  - destruct (String.eqb k' k); reflexivity.
  - destruct (String.eqb_spec x k) as [Ex | Ex]; cbn [negb].
    + rewrite IH. destruct (String.eqb_spec k' k) as [Ek | Ek]; [reflexivity |].
      replace (String.eqb x k') with false by (symmetry; apply String.eqb_neq; congruence).
      reflexivity.
    + cbn [map_get]. rewrite IH.
      destruct (String.eqb_spec x k') as [Ek | Ek]; [| reflexivity].
      replace (String.eqb k' k) with false by (symmetry; apply String.eqb_neq; congruence).
      reflexivity.
Qed.

Lemma map_get_some_In : forall s k v, map_get s k = Some v -> In k (map fst s).
Proof.
  induction s as [| [k' v'] s IH]; intros k v G; [discriminate G |]. cbn [map_get] in G.
  destruct (String.eqb_spec k' k) as [-> | E]; [left; reflexivity |].
  right. exact (IH _ _ G).
Qed.

Lemma map_get_none : forall s k, map_get s k = None -> ~ In k (map fst s).
Proof.
  induction s as [| [k' v'] s IH]; intros k G Hin; [destruct Hin |]. cbn [map_get] in G.
  destruct (String.eqb_spec k' k) as [-> | E]; [discriminate G |].
  destruct Hin as [Hin | Hin]; [contradiction | exact (IH _ G Hin)].
Qed.

(** X12: deleteEvent returns true exactly when the id is stored; afterwards getEvent of that id returns undefined, other ids are unchanged, and deleting it again returns false. *)
Theorem delete_then_get : forall s k, store_ok s ->
  let '(deleted, s') := deleteEvent s k in
  (deleted = true <-> getEvent s k <> None) /\
  getEvent s' k = None /\
  (forall k', k' <> k -> getEvent s' k' = getEvent s k') /\
  fst (deleteEvent s' k) = false.
Proof.
  intros s k [Hn Hf]. unfold deleteEvent, getEvent.
  rewrite map_delete_spec by exact Hn.
  assert (Hn' : NoDup (map fst (filter (fun kv => negb (String.eqb (fst kv) k)) s))).
  { rewrite (map_fst_filter (fun x => negb (String.eqb x k))). apply NoDup_filter. exact Hn. }
  split; [| split; [| split]].
  - rewrite existsb_eqb_In. split.
    + intros Hin G. exact (map_get_none _ _ G Hin).
    + intros G. destruct (map_get s k) eqn:E; [| contradiction].
      exact (map_get_some_In _ _ _ E).
  - rewrite map_get_filter, String.eqb_refl. reflexivity.
  - intros k' Hk. rewrite map_get_filter.
    replace (String.eqb k' k) with false by (symmetry; apply String.eqb_neq; exact Hk).
    reflexivity.
  - rewrite map_delete_spec by exact Hn'. cbn [fst].
    apply Bool.not_true_iff_false. rewrite existsb_eqb_In.
    apply map_get_none. rewrite map_get_filter, String.eqb_refl. reflexivity.
Qed.

Lemma delete_then_get_witness :
  fst (deleteEvent sample_store "a") = true /\
  getEvent (snd (deleteEvent sample_store "a")) "a" = None /\
  getEvent (snd (deleteEvent sample_store "a")) "b" = getEvent sample_store "b".
Proof.
  pose proof (delete_then_get sample_store "a" sample_store_ok) as H.
  destruct (deleteEvent sample_store "a") as [b s'] eqn:E.
  destruct H as (H1 & H2 & H3 & _). cbn [fst snd].
  split; [apply H1; discriminate | split; [exact H2 | apply H3; discriminate]].
Defined.

Lemma calculateEventDate_clock_free : forall f off nowYear1 nowYear2 e allEvents,
  Forall (fun x => dateType x = "nth"%string -> truthy_num (baseYear x) = true) (e :: allEvents) ->
  calculateEventDate f off nowYear1 e allEvents = calculateEventDate f off nowYear2 e allEvents.
Proof.
  induction f as [| f IH]; intros off nowYear1 nowYear2 e allEvents Hall; [reflexivity |].
  cbn [calculateEventDate].
  destruct (String.eqb (dateType e) "fixed"); [reflexivity |].
  destruct (String.eqb_spec (dateType e) "nth") as [Hn | Hn].
  - inversion Hall as [| ? ? He _]. specialize (He Hn).
    destruct (nthOccurrence e), (dayOfWeek e), (month e); try reflexivity.
    destruct (baseYear e) as [b |]; [| discriminate He]. rewrite He. reflexivity.
  - destruct (String.eqb (dateType e) "relative"); [| reflexivity].
    destruct (relativeEventName e), (relativePeriod e), (relativeUnit e),
      (relativeDirection e); try reflexivity.
    destruct (_ || _ || _ || _); [reflexivity |].
    destruct (find _ _) as [r |] eqn:F; [| reflexivity].
    rewrite (IH off nowYear1 nowYear2 r allEvents); [reflexivity |].
    inversion Hall as [| ? ? _ Hl]. constructor; [| exact Hl].
    apply find_some in F as [Hin _].
    rewrite Forall_forall in Hl. exact (Hl r Hin).
Qed.

(** X14: The update-year route rejects a year outside 2020..2050 and changes nothing; for a valid year it sets baseYear on exactly the nth events, leaves the others unchanged, and reports the number of nth events. *)
Theorem update_year_route :
  (forall s newYear, (forall y, newYear = Some y -> y < 2020 \/ 2050 < y) ->
     updateYear s newYear = (YearInvalid, s)) /\
  (forall s y, store_ok s -> 2020 <= y <= 2050 ->
     updateYear s (Some y) =
     (YearUpdated (List.length (filter is_nth (map snd s))) y,
      map (fun kv => (fst kv, year_update y (snd kv))) s)).
Proof.
  split.
  - intros s [y |] H; [| reflexivity]. specialize (H y eq_refl). unfold updateYear.
    replace ((y =? 0) || (y <? 2020) || (2050 <? y)) with true; [reflexivity |].
    symmetry. apply orb_true_iff. destruct H as [H | H]; [left | right; apply Z.ltb_lt; lia].
    apply orb_true_iff. right. apply Z.ltb_lt. exact H.
  - exact update_year_valid.
Qed.

Lemma update_year_route_witness :
  updateYear sample_store (Some 2019) = (YearInvalid, sample_store) /\
  updateYear sample_store (Some 2030) =
  (YearUpdated 1 2030,
   [("a"%string, {| event := with_id christmas "a"; createdAt := 2 |});
    ("b"%string, {| event := set_baseYear (with_id thanksgiving "b") 2030; createdAt := 1 |})]).
Proof.
  split.
  - apply (proj1 update_year_route). intros y E. injection E as <-. lia.
  - apply (proj2 update_year_route); [exact sample_store_ok | lia].
Defined.

(** X15: After a successful year update, the date calculateEventDate gives any stored event no longer depends on the current year. *)
Theorem update_year_fixes_clock : forall s y n s' fuel off nowYear1 nowYear2 e,
  store_ok s -> updateYear s (Some y) = (YearUpdated n y, s') ->
  In e (map event (getAllEvents s')) ->
  calculateEventDate fuel off nowYear1 e (map event (getAllEvents s'))
  = calculateEventDate fuel off nowYear2 e (map event (getAllEvents s')).
Proof.
  intros s y n s' fuel off ny1 ny2 e Hs Hu He.
  assert (Hy : 2020 <= y <= 2050).
  { unfold updateYear in Hu.
    destruct ((y =? 0) || (y <? 2020) || (2050 <? y)) eqn:V; [discriminate Hu |].
    apply orb_false_iff in V as [V V3]. apply orb_false_iff in V as [_ V2].
    apply Z.ltb_ge in V2, V3. lia. }
  rewrite update_year_valid in Hu by assumption. injection Hu as _ <-.
  apply calculateEventDate_clock_free.
  assert (A : Forall (fun x => dateType x = "nth"%string -> truthy_num (baseYear x) = true)
                     (map event (getAllEvents (map (fun kv => (fst kv, year_update y (snd kv))) s)))).
  { rewrite Forall_forall. intros x Hx Hnth.
    apply in_map_iff in Hx as (v & <- & Hv).
    apply (Permutation_in _ (getAllEvents_perm _)) in Hv.
    rewrite map_map in Hv. apply in_map_iff in Hv as ([k w] & <- & _). cbn [snd] in *.
    unfold year_update, is_nth in *.
    destruct (String.eqb_spec (dateType (event w)) "nth") as [N | N].
    + cbn [event set_baseYear baseYear truthy_num].
      replace (y =? 0) with false by (symmetry; apply Z.eqb_neq; lia). reflexivity.
    + contradiction. }
  constructor; [| exact A]. rewrite Forall_forall in A. exact (A e He).
Qed.

Lemma update_year_fixes_clock_witness :
  calculateEventDate 100 0 2024 (set_baseYear (with_id thanksgiving "b") 2030)
    (map event (getAllEvents (snd (updateYear sample_store (Some 2030)))))
  = calculateEventDate 100 0 2031 (set_baseYear (with_id thanksgiving "b") 2030)
    (map event (getAllEvents (snd (updateYear sample_store (Some 2030))))).
Proof.
  apply (update_year_fixes_clock sample_store 2030 1
           (snd (updateYear sample_store (Some 2030)))); [exact sample_store_ok | | ].
  - vm_compute. reflexivity.
  - vm_compute. left. reflexivity.
Defined.

(** X16: getOrdinalSuffix gives the English ordinal suffix (st, nd, rd, th with 11..13 as th) for every non-negative integer, and th for every negative one. *)
Theorem ordinal_suffix_english : forall n,
  Client.getOrdinalSuffix n = if n <? 0 then "th"%string else english_suffix n.
Proof.
  intros n.
  assert (R : Client.getOrdinalSuffix n = Client.getOrdinalSuffix (Z.rem n 100)).
  { unfold Client.getOrdinalSuffix. rewrite Z.rem_rem by lia. reflexivity. }
  rewrite R. destruct (Z.ltb_spec n 0) as [Hn | Hn].
  - assert (B : -99 <= Z.rem n 100 <= 0).
    { pose proof (Z.rem_nonpos n 100 ltac:(lia) ltac:(lia)).
      pose proof (Z.rem_bound_abs n 100 ltac:(lia)). lia. }
    assert (A : all_upto 100 (-99)
                  (fun v => String.eqb (Client.getOrdinalSuffix v) "th") = true)
      by (vm_compute; reflexivity).
    apply String.eqb_eq. apply (all_upto_spec _ _ _ A). lia.
  - rewrite Z.rem_mod_nonneg by lia.
    assert (E : english_suffix n = english_suffix (n mod 100)).
    { unfold english_suffix. rewrite Z.mod_mod by lia.
      rewrite (Z.mod_mod_divide n 100 10) by (exists 10; reflexivity). reflexivity. }
    rewrite E.
    assert (B : 0 <= n mod 100 < 100) by (apply Z.mod_pos_bound; lia).
    assert (A : all_upto 100 0
                  (fun v => String.eqb (Client.getOrdinalSuffix v) (english_suffix v)) = true)
      by (vm_compute; reflexivity).
    apply String.eqb_eq. apply (all_upto_spec _ _ _ A). lia.
Qed.

Lemma string_app_assoc : forall a b c : string, ((a ++ b) ++ c = a ++ b ++ c)%string.
Proof. intros a b c. induction a as [| x a IH]; cbn [append]; [reflexivity | rewrite IH; reflexivity]. Qed.

Lemma replace_all_app : forall c r a b,
  Client.replace_all c r (a ++ b) = (Client.replace_all c r a ++ Client.replace_all c r b)%string.
Proof.
  intros c r a b. induction a as [| x a IH]; cbn [append Client.replace_all]; [reflexivity |].
  rewrite IH. destruct (Ascii.eqb x c); [symmetry; apply string_app_assoc | reflexivity].
Qed.

Lemma escape_single_pass : forall v, Client.escapeICSValue v = escape_once v.
Proof.
  intros v. induction v as [| c v IH]; [reflexivity |].
  unfold Client.escapeICSValue in *. cbn [escape_once].
  change (String c v) with (String c EmptyString ++ v)%string.
  rewrite !replace_all_app, IH. f_equal.
  unfold escape_char, Client.LF, Client.CR.
  destruct c as [[] [] [] [] [] [] [] []]; vm_compute; reflexivity.
Qed.

(** X17: escapeICSValue never leaves a line feed or carriage return in its result. *)
Theorem escape_no_line_breaks : forall v,
  has_char Client.LF (Client.escapeICSValue v) = false /\
  has_char Client.CR (Client.escapeICSValue v) = false.
Proof.
  intros v. rewrite escape_single_pass.
  induction v as [| c v [IH1 IH2]]; [split; reflexivity |]. cbn [escape_once].
  rewrite !has_char_app, IH1, IH2, !orb_false_r.
  unfold escape_char, Client.LF, Client.CR.
  destruct c as [[] [] [] [] [] [] [] []]; vm_compute; split; reflexivity.
Qed.

(** X18: For a value without carriage returns, reading the escaped text back with the ICS unescaping rules gives the original value; the five replacements act as a single character-by-character pass. *)
Theorem escape_round_trip : forall v, has_char Client.CR v = false ->
  ics_unescape (Client.escapeICSValue v) = v.
Proof.
  intros v H. rewrite escape_single_pass.
  induction v as [| c v IH]; [reflexivity |]. cbn [escape_once has_char] in *.
  apply orb_false_iff in H as [Hc H]. specialize (IH H).
  revert Hc. unfold escape_char, Client.LF, Client.CR.
  destruct c as [[] [] [] [] [] [] [] []]; intros Hc;
    try discriminate Hc; cbn - [ics_unescape]; rewrite <- IH at 2 ; reflexivity.
Qed.

Lemma escape_round_trip_witness :
  ics_unescape (Client.escapeICSValue
    (String "a" (String ";" (String "," (String "\" (String Client.LF EmptyString))))))
  = String "a" (String ";" (String "," (String "\" (String Client.LF EmptyString)))).
Proof. apply escape_round_trip. reflexivity. Defined.

Lemma client_scan_forward_null : forall off fuel d,
  Client.scan_forward off None fuel d = Diverge.
Proof. intros off fuel. induction fuel as [| f IH]; intros d; [reflexivity | apply IH]. Qed.

(** X19: The client calculateEventDate on an nth event with a null dayOfWeek (and truthy occurrence and month) never terminates. *)
Theorem client_null_weekday_hangs : forall dateParse fuel off nowYear e allEvents n m,
  dateType e = "nth"%string -> nthOccurrence e = Some n -> month e = Some m ->
  n <> 0 -> m <> 0 -> dayOfWeek e = None ->
  Client.calculateEventDate dateParse fuel off nowYear e allEvents = Diverge.
Proof.
  intros dp fuel off ny e all n m Ht Hn Hm Hn0 Hm0 Hd.
  destruct fuel as [| fuel]; [reflexivity |]. cbn [Client.calculateEventDate].
  rewrite Ht, Hn, Hm, Hd. cbn [String.eqb Ascii.eqb Bool.eqb truthy_num].
  replace (n =? 0) with false by (symmetry; apply Z.eqb_neq; exact Hn0).
  replace (m =? 0) with false by (symmetry; apply Z.eqb_neq; exact Hm0).
  cbn [negb andb]. unfold Client.calculateNthDate. rewrite client_scan_forward_null.
  reflexivity.
Qed.

Lemma client_null_weekday_hangs_witness :
  Client.calculateEventDate (fun _ => Some 0) 100 0 2024 no_weekday [] = Diverge.
Proof. apply (client_null_weekday_hangs _ _ _ _ _ _ 2 5); first [reflexivity | lia]. Defined.

(** X20: Unlike the server, the client calculateEventDate throws the invalid-unit error for a relative event whose unit is not days, weeks, months or years once its reference resolves to a date. *)
Theorem client_invalid_unit_throws : forall dateParse fuel off nowYear e allEvents
    name period unit dir r d,
  dateType e = "relative"%string ->
  relativeEventName e = Some name -> relativePeriod e = Some period ->
  relativeUnit e = Some unit -> relativeDirection e = Some dir ->
  name <> EmptyString -> period <> 0 -> dir <> EmptyString ->
  ~ In unit ["days"; "weeks"; "months"; "years"; ""]%string ->
  find (title_is name) allEvents = Some r ->
  Client.calculateEventDate dateParse fuel off nowYear r allEvents = Ret (Some d) ->
  Client.calculateEventDate dateParse (S fuel) off nowYear e allEvents = Throw (InvalidUnit unit).
Proof.
  intros dp fuel off ny e all name period unit dir r d Ht Hn Hp Hu Hd Hn0 Hp0 Hd0 Hunit Hf Hr.
  cbn [Client.calculateEventDate]. rewrite Ht, Hn, Hp, Hu, Hd.
  cbn [String.eqb Ascii.eqb Bool.eqb truthy_num truthy_str].
  replace (String.eqb name "") with false by (symmetry; apply String.eqb_neq; exact Hn0).
  replace (String.eqb dir "") with false by (symmetry; apply String.eqb_neq; exact Hd0).
  replace (String.eqb unit "") with false
    by (symmetry; apply String.eqb_neq; intro E; apply Hunit; subst; cbn; tauto).
  replace (period =? 0) with false by (symmetry; apply Z.eqb_neq; exact Hp0).
  cbn [negb andb]. rewrite Hf, Hr. unfold calculateRelativeDate.
  replace (String.eqb unit "days") with false
    by (symmetry; apply String.eqb_neq; intro E; apply Hunit; subst; cbn; tauto).
  replace (String.eqb unit "weeks") with false
    by (symmetry; apply String.eqb_neq; intro E; apply Hunit; subst; cbn; tauto).
  replace (String.eqb unit "months") with false
    by (symmetry; apply String.eqb_neq; intro E; apply Hunit; subst; cbn; tauto).
  replace (String.eqb unit "years") with false
    by (symmetry; apply String.eqb_neq; intro E; apply Hunit; subst; cbn; tauto).
  reflexivity.
Qed.

Lemma client_invalid_unit_throws_witness :
  Client.calculateEventDate (fun _ => Some 0) 5 0 2024 bad_unit [christmas; bad_unit]
  = Throw (InvalidUnit "fortnights").
Proof.
  apply (client_invalid_unit_throws (fun _ => Some 0) 4 0 2024 bad_unit [christmas; bad_unit]
           "Christmas" 1 "fortnights" "after" christmas (Some 0));
    first [reflexivity | lia | discriminate | idtac].
  cbn. intuition discriminate.
Defined.
